(** * domain_fetcher: the domain availability checker

    A shallow embedding of [utils/external-tools/domain_checker.py]:
    the syntactic validator [is_valid_domain], the three lookup strategies,
    the fallback chain [check_domain] and the batch, suggestion and search
    helpers, together with the properties of them that the specification
    states. *)

From Stdlib Require Import Ascii List Bool Arith ZArith QArith_base Lia.
From Stdlib Require String.
From stdpp Require Import list strings.
Import ListNotations.
Close Scope Q_scope.
Set Warnings "-register-all".
Set Default Proof Using "Type".

(** * Characters and strings *)

(** Python strings are modelled as [string]; the regular expression engine
    walks them as lists of characters.  Every character class of the program
    is a set of ASCII characters, so a character outside ASCII is rejected by
    each of them whether it is seen as one code point or as several bytes. *)

Module Chars.

Definition in_range (lo hi c : ascii) : bool :=
  (nat_of_ascii lo <=? nat_of_ascii c)%nat && (nat_of_ascii c <=? nat_of_ascii hi)%nat.

Definition is_lower (c : ascii) : bool := in_range "a" "z" c.
Definition is_upper (c : ascii) : bool := in_range "A" "Z" c.
Definition is_digit (c : ascii) : bool := in_range "0" "9" c.

(** [[a-zA-Z]] *)
Definition alpha (c : ascii) : bool := is_lower c || is_upper c.
(** [[a-zA-Z0-9]] *)
Definition alnum (c : ascii) : bool := is_lower c || is_upper c || is_digit c.
(** [[a-zA-Z0-9-]] *)
Definition alnum_hyphen (c : ascii) : bool := alnum c || Ascii.eqb c "-".
(** [\.] *)
Definition dot (c : ascii) : bool := Ascii.eqb c ".".

Definition newline : ascii := "010".

End Chars.

(** * The regular expression engine

    [re.match(pattern, domain)] is embedded as a backtracking matcher in
    continuation-passing style over the constructs the pattern of the program
    uses: character sets, concatenation, an optional group, a bounded or
    unbounded repetition of a character set, and the two anchors. *)

Module Re.

Inductive regex : Type :=
| Set_ (cls : ascii -> bool)
| Cat (r1 r2 : regex)
| Opt (r : regex)
| Repeat (cls : ascii -> bool) (lo : nat) (hi : option nat)
| Bol
| Eol.

(** [hi] of [{lo,hi}] still allows one more character. *)
Definition may_take (hi : option nat) : bool :=
  match hi with Some 0 => false | _ => true end.

Definition dec_bound (hi : option nat) : option nat := option_map Nat.pred hi.

(** Greedy repetition of a character set: take a character when allowed,
    and fall back to stopping here once [lo] characters have been taken. *)
Fixpoint rep (cls : ascii -> bool) (lo : nat) (hi : option nat)
    (pos : nat) (s : list ascii) (k : nat -> list ascii -> bool) : bool :=
  let stop := match lo with 0 => k pos s | S _ => false end in
  match s with
  | c :: s' =>
      if cls c && may_take hi
      then rep cls (Nat.pred lo) (dec_bound hi) (S pos) s' k || stop
      else stop
  | [] => stop
  end.

(** [$] matches at the end of the string and just before a line feed that
    ends the string ([re.MULTILINE] is not set). *)
Definition at_end (s : list ascii) : bool :=
  match s with
  | [] => true
  | [c] => Ascii.eqb c Chars.newline
  | _ => false
  end.

Fixpoint exec (r : regex) (pos : nat) (s : list ascii)
    (k : nat -> list ascii -> bool) : bool :=
  match r with
  | Set_ cls =>
      match s with
      | c :: s' => cls c && k (S pos) s'
      | [] => false
      end
  | Cat r1 r2 => exec r1 pos s (fun pos1 s1 => exec r2 pos1 s1 k)
  | Opt r1 => exec r1 pos s k || k pos s
  | Repeat cls lo hi => rep cls lo hi pos s k
  | Bol => (pos =? 0)%nat && k pos s
  | Eol => at_end s && k pos s
  end.

(** [re.match] tries the pattern at index 0 only and accepts any rest. *)
Definition re_match (r : regex) (s : string) : bool :=
  exec r 0 (String.list_ascii_of_string s) (fun _ _ => true).

(** What a successful run of [r] from [(pos, s)] to [(pos', s')] consumes. *)
Definition within (hi : option nat) (n : nat) : Prop :=
  match hi with Some h => n <= h | None => True end.

Fixpoint consumes (r : regex) (pos : nat) (s : list ascii)
    (pos' : nat) (s' : list ascii) : Prop :=
  match r with
  | Set_ cls => exists c, s = c :: s' /\ cls c = true /\ pos' = S pos
  | Cat r1 r2 =>
      exists pos1 s1, consumes r1 pos s pos1 s1 /\ consumes r2 pos1 s1 pos' s'
  | Opt r1 => consumes r1 pos s pos' s' \/ (pos' = pos /\ s' = s)
  | Repeat cls lo hi =>
      exists u, s = u ++ s' /\ forallb cls u = true /\
                lo <= length u /\ within hi (length u) /\ pos' = pos + length u
  | Bol => pos = 0 /\ pos' = pos /\ s' = s
  | Eol => at_end s = true /\ pos' = pos /\ s' = s
  end.

End Re.

(** * The validator *)

(** [r'^[a-zA-Z0-9]([a-zA-Z0-9-]{0,61}[a-zA-Z0-9])?\.([a-zA-Z]{2,})$'] *)
Definition pattern : Re.regex :=
  Re.Cat Re.Bol
 (Re.Cat (Re.Set_ Chars.alnum)
 (Re.Cat (Re.Opt (Re.Cat (Re.Repeat Chars.alnum_hyphen 0 (Some 61))
                         (Re.Set_ Chars.alnum)))
 (Re.Cat (Re.Set_ Chars.dot)
 (Re.Cat (Re.Repeat Chars.alpha 2 None)
          Re.Eol)))).

(** [not domain]: the empty string is falsy. *)
Definition str_falsy (s : string) : bool :=
  match s with EmptyString => true | String _ _ => false end.

Definition is_valid_domain (domain : string) : bool :=
  if str_falsy domain || (253 <? String.length domain)%nat then false
  else Re.re_match pattern domain.

(** * Python values and exceptions *)

(** The values that cross the interfaces of the external libraries: decoded
    JSON bodies and the attributes of a WHOIS record. *)
Inductive pyval : Type :=
| PyNone
| PyBool (b : bool)
| PyInt (z : Z)
| PyFloat (q : Q)
| PyStr (s : string)
| PyList (l : list pyval)
| PyDict (kvs : list (string * pyval)).

(** [bool(v)] *)
Definition truthy (v : pyval) : bool :=
  match v with
  | PyNone => false
  | PyBool b => b
  | PyInt z => negb (z =? 0)%Z
  | PyFloat q => negb (Qnum q =? 0)%Z
  | PyStr s => negb (str_falsy s)
  | PyList l => match l with [] => false | _ :: _ => true end
  | PyDict kvs => match kvs with [] => false | _ :: _ => true end
  end.

(** [not s] for an [Optional[str]] *)
Definition opt_str_falsy (o : option string) : bool :=
  match o with
  | None => true
  | Some s => str_falsy s
  end.

(** [sub in s] on strings *)
Fixpoint str_contains (sub s : string) : bool :=
  String.prefix sub s ||
  match s with
  | EmptyString => false
  | String _ s' => str_contains sub s'
  end.

Definition lower_char (c : ascii) : ascii :=
  if Chars.is_upper c then ascii_of_nat (nat_of_ascii c + 32) else c.

(** [s.lower()], on the ASCII letters: no other character lowers to a letter
    of the text that is searched for in the result. *)
Fixpoint str_lower (s : string) : string :=
  match s with
  | EmptyString => EmptyString
  | String c s' => String (lower_char c) (str_lower s')
  end.

(** [d.get(key)] on the items of a dict *)
Fixpoint dict_lookup (key : string) (kvs : list (string * pyval)) : option pyval :=
  match kvs with
  | [] => None
  | (k, v) :: rest => if String.eqb k key then Some v else dict_lookup key rest
  end.

(** The exception classes the handlers of the program tell apart; every one
    of them derives from [Exception]. *)
Inductive exn_class : Type :=
| PywhoisError        (* whois.parser.PywhoisError *)
| Gaierror            (* socket.gaierror *)
| RequestException    (* requests.exceptions.RequestException and subclasses *)
| TypeError
| AttributeError
| OtherException.

Record exn : Type := Exn { exn_kind : exn_class; exn_str : string }.

(** * Results *)

Record DomainResult : Type := mkDomainResult {
  domain : string;
  available : option bool;
  status : option string;
  error : option string;
  details : option pyval;
  method : option string
}.

(** * The outside world *)

Record request : Type := mkRequest {
  req_url : string;
  req_params : list (string * string);
  req_headers : list (string * option string);
  req_timeout : Z
}.

Record response : Type := mkResponse {
  status_code : Z;
  (** the text of the [HTTPError] that [raise_for_status] raises on 4xx/5xx *)
  http_error : string;
  (** what [response.json()] does *)
  json_body : exn + pyval
}.

(** The attributes of the object [whois.whois] returns that the program
    reads.  The two dates are only tested for truth and rendered with
    [str]: [None] stands for a falsy attribute, [Some s] for a truthy one
    whose rendering is [s]. *)
Record whois_entry : Type := mkWhois {
  domain_name : pyval;
  registrar : pyval;
  creation_date : option string;
  expiration_date : option string
}.

Inductive event : Type :=
| Call (name : string) (arg : string)   (* entry into a method of the checker *)
| WhoisQuery (d : string)               (* whois.whois *)
| DnsQuery (d : string)                 (* socket.gethostbyname *)
| HttpGet (rq : request)                (* session.get *)
| Sleep (seconds : Q).                  (* time.sleep *)

Definition trace := list event.

(** What the network answers; an answer may depend on everything that has
    happened so far. *)
Record world : Type := mkWorld {
  whois_answer : trace -> string -> exn + whois_entry;
  dns_answer : trace -> string -> exn + string;
  http_answer : trace -> request -> exn + response
}.

(** * A monad of traces and exceptions *)

Inductive outcome (A : Type) : Type :=
| Ok (a : A)
| Raised (e : exn).
Arguments Ok {A} a.
Arguments Raised {A} e.

Definition M (A : Type) : Type := trace -> outcome A * trace.

Definition ret {A} (a : A) : M A := fun tr => (Ok a, tr).

Definition bind {A B} (m : M A) (k : A -> M B) : M B :=
  fun tr =>
    match m tr with
    | (Ok a, tr') => k a tr'
    | (Raised e, tr') => (Raised e, tr')
    end.

Definition raise {A} (e : exn) : M A := fun tr => (Raised e, tr).

(** [try: body except Exception as e: handler] *)
Definition try_except {A} (body : M A) (handler : exn -> M A) : M A :=
  fun tr =>
    match body tr with
    | (Ok a, tr') => (Ok a, tr')
    | (Raised e, tr') => handler e tr'
    end.

Definition emit (e : event) : M unit := fun tr => (Ok tt, tr ++ [e]).

(** An external call: the world answers from the history, the call is logged. *)
Definition ask {A} (answer : trace -> exn + A) (e : event) : M A :=
  fun tr =>
    match answer tr with
    | inl x => (Raised x, tr ++ [e])
    | inr a => (Ok a, tr ++ [e])
    end.

Declare Scope monad_scope.
Delimit Scope monad_scope with monad.
Notation "x <- m ;; k" := (bind m (fun x => k))
  (at level 100, m at next level, right associativity) : monad_scope.
Notation "m ;; k" := (bind m (fun _ => k))
  (at level 100, right associativity) : monad_scope.
Local Open Scope monad_scope.

(** * The checker *)

Record api_config : Type := mkApi {
  url : string;
  headers : list (string * option string)
}.

(** [self]: the credential is read from the environment once, in [__init__]. *)
Record DomainChecker : Type := mkChecker {
  rapidapi_key : option string
}.

Definition init (getenv : string -> option string) : DomainChecker :=
  {| rapidapi_key := getenv "RAPIDAPI_KEY" |}.

Definition session_headers : list (string * option string) :=
  [("User-Agent", Some "Mozilla/5.0 (Windows NT 10.0; Win64; x64) AppleWebKit/537.36")].

Definition apis (self : DomainChecker) : list (string * api_config) :=
  [ ("whoisapi",
     {| url := "https://whois-lookup4.p.rapidapi.com/domain";
        headers := [("X-RapidAPI-Key", rapidapi_key self);
                    ("X-RapidAPI-Host", Some "whois-lookup4.p.rapidapi.com")] |});
    ("domaindb",
     {| url := "https://domaindb.p.rapidapi.com";
        headers := [("X-RapidAPI-Key", rapidapi_key self);
                    ("X-RapidAPI-Host", Some "domaindb.p.rapidapi.com")] |}) ].

(** [self.apis.get(api_name)] *)
Fixpoint apis_get (api_name : string) (table : list (string * api_config))
    : option api_config :=
  match table with
  | [] => None
  | (k, v) :: rest => if String.eqb k api_name then Some v else apis_get api_name rest
  end.

Definition type_name (v : pyval) : string :=
  match v with
  | PyNone => "NoneType"
  | PyBool _ => "bool"
  | PyInt _ => "int"
  | PyFloat _ => "float"
  | PyStr _ => "str"
  | PyList _ => "list"
  | PyDict _ => "dict"
  end.

(** [key in data] *)
Definition py_in (key : string) (data : pyval) : M bool :=
  match data with
  | PyDict kvs => ret (match dict_lookup key kvs with Some _ => true | None => false end)
  | PyList l =>
      ret (existsb (fun x => match x with PyStr s => String.eqb s key | _ => false end) l)
  | PyStr s => ret (str_contains key s)
  | _ => raise (Exn TypeError ("argument of type '" +:+ type_name data +:+ "' is not iterable"))
  end.

(** [data.get(key, default)] *)
Definition py_get (data : pyval) (key : string) (default : pyval) : M pyval :=
  match data with
  | PyDict kvs => ret (match dict_lookup key kvs with Some v => v | None => default end)
  | _ => raise (Exn AttributeError ("'" +:+ type_name data +:+ "' object has no attribute 'get'"))
  end.

Definition opt_pystr (o : option string) : pyval :=
  match o with
  | Some s => PyStr s
  | None => PyNone
  end.

Section Checker.

Variable w : world.
Variable self : DomainChecker.

(** ** External calls *)

Definition whois_whois (d : string) : M whois_entry :=
  ask (fun tr => whois_answer w tr d) (WhoisQuery d).

Definition gethostbyname (d : string) : M string :=
  ask (fun tr => dns_answer w tr d) (DnsQuery d).

Definition session_get (u : string) (params : list (string * string))
    (hs : list (string * option string)) (timeout : Z) : M response :=
  let rq := {| req_url := u; req_params := params;
               req_headers := session_headers ++ hs; req_timeout := timeout |} in
  ask (fun tr => http_answer w tr rq) (HttpGet rq).

Definition raise_for_status (r : response) : M unit :=
  if (400 <=? status_code r)%Z && (status_code r <? 600)%Z
  then raise (Exn RequestException (http_error r))
  else ret tt.

Definition json (r : response) : M pyval :=
  match json_body r with
  | inl e => raise e
  | inr v => ret v
  end.

Definition sleep (seconds : Q) : M unit := emit (Sleep seconds).

(** ** The three strategies *)

Definition check_domain_whois (domain : string) : M DomainResult :=
  emit (Call "check_domain_whois" domain) ;;
  try_except
    (w <- whois_whois domain ;;
     if negb (truthy (domain_name w)) then
       ret {| domain := domain; available := Some true; status := Some "AVAILABLE";
              error := None;
              details := Some (PyDict [("whois_data", PyStr "No registration found")]);
              method := Some "whois_library" |}
     else
       ret {| domain := domain; available := Some false; status := Some "REGISTERED";
              error := None;
              details := Some (PyDict [("registrar", registrar w);
                                       ("creation_date", opt_pystr (creation_date w));
                                       ("expiration_date", opt_pystr (expiration_date w))]);
              method := Some "whois_library" |})
    (fun e =>
       match exn_kind e with
       | PywhoisError =>
           if str_contains "No match" (exn_str e)
              || str_contains "not found" (str_lower (exn_str e))
           then
             ret {| domain := domain; available := Some true; status := Some "AVAILABLE";
                    error := None; details := None; method := Some "whois_library" |}
           else
             ret {| domain := domain; available := None; status := None;
                    error := Some ("WHOIS error: " +:+ exn_str e);
                    details := None; method := Some "whois_library" |}
       | _ =>
           ret {| domain := domain; available := None; status := None;
                  error := Some ("WHOIS check failed: " +:+ exn_str e);
                  details := None; method := Some "whois_library" |}
       end).

Definition check_domain_dns (domain : string) : M DomainResult :=
  emit (Call "check_domain_dns" domain) ;;
  try_except
    (gethostbyname domain ;;
     ret {| domain := domain; available := Some false; status := Some "REGISTERED";
            error := None; details := Some (PyDict [("dns_resolves", PyBool true)]);
            method := Some "dns_resolution" |})
    (fun e =>
       match exn_kind e with
       | Gaierror =>
           ret {| domain := domain; available := Some true; status := Some "AVAILABLE";
                  error := None; details := Some (PyDict [("dns_resolves", PyBool false)]);
                  method := Some "dns_resolution" |}
       | _ =>
           ret {| domain := domain; available := None; status := None;
                  error := Some ("DNS check failed: " +:+ exn_str e);
                  details := None; method := Some "dns_resolution" |}
       end).

Definition check_domain_rapidapi (domain : string) (api_name : string) : M DomainResult :=
  emit (Call "check_domain_rapidapi" domain) ;;
  if opt_str_falsy (rapidapi_key self) then
    ret {| domain := domain; available := None; status := None;
           error := Some "RapidAPI key not found in environment variables";
           details := None; method := Some ("rapidapi_" +:+ api_name) |}
  else
    try_except
      (match apis_get api_name (apis self) with
       | None =>
           ret {| domain := domain; available := None; status := None;
                  error := Some ("Unknown API: " +:+ api_name);
                  details := None; method := Some ("rapidapi_" +:+ api_name) |}
       | Some api_config =>
           response <-
             (if String.eqb api_name "whoisapi"
              then session_get (url api_config) [("domain", domain)] (headers api_config) 10
              else session_get (url api_config +:+ "/" +:+ domain) [] (headers api_config) 10) ;;
           raise_for_status response ;;
           data <- json response ;;
           verdict <-
             (if String.eqb api_name "whoisapi" then
                has_registrar <- py_in "registrar" data ;;
                has_creation <- (if has_registrar then ret true
                                 else py_in "creation_date" data) ;;
                if has_creation then ret (false, "REGISTERED")
                else ret (true, "AVAILABLE")
              else
                registered <- py_get data "registered" (PyBool true) ;;
                let available := negb (truthy registered) in
                ret (available, if available then "AVAILABLE" else "REGISTERED")) ;;
           ret {| domain := domain; available := Some (fst verdict);
                  status := Some (snd verdict); error := None;
                  details := Some data; method := Some ("rapidapi_" +:+ api_name) |}
       end)
      (fun e =>
         match exn_kind e with
         | RequestException =>
             ret {| domain := domain; available := None; status := None;
                    error := Some ("API request failed: " +:+ exn_str e);
                    details := None; method := Some ("rapidapi_" +:+ api_name) |}
         | _ =>
             ret {| domain := domain; available := None; status := None;
                    error := Some ("API check failed: " +:+ exn_str e);
                    details := None; method := Some ("rapidapi_" +:+ api_name) |}
         end).

(** ** The fallback chain *)

Definition default_methods : list string := ["whois"; "dns"; "rapidapi"].

(** [result.available is not None and not result.error] *)
Definition definitive (result : DomainResult) : bool :=
  match available result with Some _ => true | None => false end
  && opt_str_falsy (error result).

(** How one turn of the [for] loop ends: with [return result], or by going
    on to the next method with the current [last_result]. *)
Inductive flow : Type :=
| Return_ (result : DomainResult)
| Next (last_result : option DomainResult).

(** The [if]/[elif] chain; [None] is the final [else: continue]. *)
Definition dispatch (domain method : string) : M (option DomainResult) :=
  if String.eqb method "whois" then
    result <- check_domain_whois domain ;; ret (Some result)
  else if String.eqb method "dns" then
    result <- check_domain_dns domain ;; ret (Some result)
  else if String.eqb method "rapidapi" then
    result <- check_domain_rapidapi domain "whoisapi" ;; ret (Some result)
  else ret None.

(** The body of the loop.  [time.sleep] does not raise, so the handler is
    only reached from the strategy call, before [last_result] is assigned. *)
Definition attempt (domain method : string) (last_result : option DomainResult) : M flow :=
  try_except
    (chosen <- dispatch domain method ;;
     match chosen with
     | None => ret (Next last_result)
     | Some result =>
         if definitive result then ret (Return_ result)
         else sleep (1 # 2) ;; ret (Next (Some result))
     end)
    (fun _ => ret (Next last_result)).

Fixpoint for_methods (domain : string) (methods : list string)
    (last_result : option DomainResult) : M flow :=
  match methods with
  | [] => ret (Next last_result)
  | method :: rest =>
      f <- attempt domain method last_result ;;
      match f with
      | Return_ result => ret (Return_ result)
      | Next last_result' => for_methods domain rest last_result'
      end
  end.

Definition check_domain (domain : string) (methods : option (list string)) : M DomainResult :=
  emit (Call "check_domain" domain) ;;
  if negb (is_valid_domain domain) then
    ret {| domain := domain; available := None; status := None;
           error := Some "Invalid domain format"; details := None; method := None |}
  else
    let methods := match methods with None => default_methods | Some ms => ms end in
    f <- for_methods domain methods None ;;
    match f with
    | Return_ result => ret result
    | Next (Some last_result) => ret last_result
    | Next None =>
        ret {| domain := domain; available := None; status := None;
               error := Some "All methods failed"; details := None; method := None |}
    end.

(** ** Batch, suggestions and search *)

Fixpoint check_multiple_loop (domains : list string) (delay : Q)
    (results : list DomainResult) : M (list DomainResult) :=
  match domains with
  | [] => ret results
  | domain :: rest =>
      result <- check_domain domain None ;;
      (if Qlt_le_dec 0 delay then sleep delay else ret tt) ;;
      check_multiple_loop rest delay (results ++ [result])
  end.

Definition check_multiple_domains (domains : list string) (delay : Q) : M (list DomainResult) :=
  check_multiple_loop domains delay [].

Definition default_tlds : list string :=
  ["com"; "net"; "org"; "io"; "co"; "app"; "dev"; "tech"].

Definition generate_domain_suggestions (base_name : string) (tlds : option (list string))
    : list string :=
  let tlds := match tlds with None => default_tlds | Some ts => ts end in
  let suggestions :=
    fold_left (fun suggestions tld => suggestions ++ [base_name +:+ "." +:+ tld]) tlds [] in
  let variations :=
    [ "get" +:+ base_name; base_name +:+ "app"; base_name +:+ "hq";
      base_name +:+ "pro"; "my" +:+ base_name; base_name +:+ "online" ] in
  fold_left
    (fun suggestions variation =>
       fold_left (fun suggestions tld => suggestions ++ [variation +:+ "." +:+ tld])
                 (firstn 4 tlds) suggestions)
    (firstn 3 variations) suggestions.

Fixpoint search_loop (suggestions : list string) (max_results : Z)
    (available_domains : list DomainResult) : M (list DomainResult) :=
  match suggestions with
  | [] => ret available_domains
  | domain :: rest =>
      if (max_results <=? Z.of_nat (length available_domains))%Z then ret available_domains
      else
        result <- check_domain domain None ;;
        let available_domains :=
          match available result with
          | Some true => available_domains ++ [result]
          | _ => available_domains
          end in
        sleep (4 # 5) ;;
        search_loop rest max_results available_domains
  end.

Definition search_available_domains (base_name : string) (max_results : Z)
    : M (list DomainResult) :=
  search_loop (generate_domain_suggestions base_name None) max_results [].

End Checker.

(** * Vocabulary of the statements *)

(** ** Shapes of names *)

Definition starts_with_hyphen (l : list ascii) : bool :=
  match l with
  | c :: _ => Ascii.eqb c "-"
  | [] => false
  end.

(** 1 to 63 letters, digits or hyphens, no hyphen first or last. *)
Definition is_label (l : list ascii) : bool :=
  (1 <=? length l) && (length l <=? 63)
  && forallb Chars.alnum_hyphen l
  && negb (starts_with_hyphen l) && negb (starts_with_hyphen (rev l)).

(** At least two letters. *)
Definition is_tld (t : list ascii) : bool :=
  (2 <=? length t) && forallb Chars.alpha t.

(** What the pattern accepts: one label, a dot and a run of letters. *)
Definition label_dot_tld (s : string) : Prop :=
  exists l t : string,
    s = l +:+ "." +:+ t
    /\ is_label (String.list_ascii_of_string l) = true
    /\ is_tld (String.list_ascii_of_string t) = true.

Fixpoint ends_with_newline (s : string) : bool :=
  match s with
  | EmptyString => false
  | String c EmptyString => Ascii.eqb c Chars.newline
  | String _ s' => ends_with_newline s'
  end.

(** [s.split('.')] *)
Fixpoint split_dots (s : list ascii) : list (list ascii) :=
  match s with
  | [] => [[]]
  | c :: s' =>
      if Chars.dot c then [] :: split_dots s'
      else match split_dots s' with
           | l :: ls => (c :: l) :: ls
           | [] => [[c]]
           end
  end.

(** The shape as the specification words it: [label(.label)+], every label
    1 to 63 letters, digits or hyphens without a hyphen at either end, the
    last label at least two letters, at most 253 characters in all. *)
Definition spec_shape (s : string) : bool :=
  let labels := split_dots (String.list_ascii_of_string s) in
  (2 <=? length labels)
  && forallb is_label labels
  && match rev labels with
     | tld :: _ => is_tld tld
     | [] => false
     end
  && (String.length s <=? 253).

(** ** Reading a trace *)

Definition strategy_of_call (name : string) : option string :=
  if String.eqb name "check_domain_whois" then Some "whois"
  else if String.eqb name "check_domain_dns" then Some "dns"
  else if String.eqb name "check_domain_rapidapi" then Some "rapidapi"
  else None.

(** The strategies that were entered, oldest first. *)
Fixpoint invoked (tr : trace) : list string :=
  match tr with
  | [] => []
  | Call name _ :: rest =>
      match strategy_of_call name with
      | Some m => m :: invoked rest
      | None => invoked rest
      end
  | _ :: rest => invoked rest
  end.

(** The domains [check_domain] was entered with, oldest first. *)
Fixpoint checked (tr : trace) : list string :=
  match tr with
  | [] => []
  | Call name d :: rest =>
      if String.eqb name "check_domain" then d :: checked rest else checked rest
  | _ :: rest => checked rest
  end.

(** The requests that went to the network, of any kind. *)
Definition is_network (e : event) : bool :=
  match e with
  | WhoisQuery _ | DnsQuery _ | HttpGet _ => true
  | Call _ _ | Sleep _ => false
  end.

Definition network (tr : trace) : list event := List.filter is_network tr.

(** The names the [if]/[elif] chain of [check_domain] knows. *)
Definition recognised (m : string) : bool :=
  String.eqb m "whois" || String.eqb m "dns" || String.eqb m "rapidapi".

(** ** Runs of the chain *)

Section Runs.

Variable w : world.
Variable self : DomainChecker.

(** The strategy named [m], entered at history [tr], returns [r] and leaves
    the history [tr']. *)
Definition answers (d m : string) (tr : trace) (r : DomainResult) (tr' : trace) : Prop :=
  dispatch w self d m tr = (Ok (Some r), tr').

(** The chain goes through all of [ms] without a definitive answer: unknown
    names are passed over, every strategy that is tried answers with a
    result that is not definitive and becomes the last result. *)
Inductive falls_through (d : string)
  : list string -> option DomainResult -> trace -> option DomainResult -> trace -> Prop :=
| ft_done last tr :
    falls_through d [] last tr last tr
| ft_skip m ms last tr last' tr' :
    recognised m = false ->
    falls_through d ms last tr last' tr' ->
    falls_through d (m :: ms) last tr last' tr'
| ft_tried m ms last tr r tr1 last' tr' :
    answers d m tr r tr1 ->
    definitive r = false ->
    falls_through d ms (Some r) (tr1 ++ [Sleep (1 # 2)]) last' tr' ->
    falls_through d (m :: ms) last tr last' tr'.

End Runs.

(** [available] is [True] or [False] only without an [error]. *)
Definition error_only_with_unknown (r : DomainResult) : Prop :=
  available r <> None -> error r = None.

Definition invalid_result (d : string) : DomainResult :=
  {| domain := d; available := None; status := None;
     error := Some "Invalid domain format"; details := None; method := None |}.

Definition all_failed_result (d : string) : DomainResult :=
  {| domain := d; available := None; status := None;
     error := Some "All methods failed"; details := None; method := None |}.

(** A strategy of the checker, entered as the method [name] with [d] at
    history [tr], ends in [res]: it returns a result for [d], logs its own
    entry and after it nothing but traffic and pauses. *)
Definition strategy_run (name d : string) (tr : trace)
    (res : outcome DomainResult * trace) : Prop :=
  exists r ext,
    res = (Ok r, tr ++ Call name d :: ext)
    /\ domain r = d /\ error_only_with_unknown r
    /\ invoked ext = [] /\ checked ext = [].

(** ** Sample worlds

    Worlds whose answers do not depend on the history, and two checkers. *)

Definition constant_world (whois : exn + whois_entry) (dns : exn + string)
    (http : exn + response) : world :=
  {| whois_answer := fun _ _ => whois;
     dns_answer := fun _ _ => dns;
     http_answer := fun _ _ => http |}.

Definition refused : exn := Exn OtherException "connection refused".

(** WHOIS is unreachable, the name does not resolve. *)
Definition world_dns_only : world :=
  constant_world (inl refused) (inl (Exn Gaierror "Name or service not known")) (inl refused).

(** Nothing is reachable. *)
Definition world_offline : world :=
  constant_world (inl refused) (inl refused) (inl refused).

(** WHOIS reports no match for every name. *)
Definition world_all_free : world :=
  constant_world (inl (Exn PywhoisError "No match for domain")) (inl refused) (inl refused).

(** The provider answers 200 with an empty JSON object. *)
Definition world_empty_json : world :=
  constant_world (inl refused) (inl refused)
    (inr {| status_code := 200; http_error := ""; json_body := inr (PyDict []) |}).

Definition checker_without_key : DomainChecker := init (fun _ => None).
Definition checker_with_key : DomainChecker :=
  init (fun name => if String.eqb name "RAPIDAPI_KEY" then Some "secret" else None).

(** [n * c] for a one-character string [c] *)
Fixpoint str_repeat (c : ascii) (n : nat) : string :=
  match n with
  | 0 => EmptyString
  | S n' => String c (str_repeat c n')
  end.

(** * Vocabulary of the further properties *)

(** The dots of a name. *)
Definition dots (s : string) : nat :=
  length (List.filter Chars.dot (String.list_ascii_of_string s)).

(** The characters a name the validator accepts is made of. *)
Definition name_char (c : ascii) : bool :=
  Chars.alnum_hyphen c || Chars.dot c || Ascii.eqb c Chars.newline.

(** [status] says what [available] says. *)
Definition status_matches (r : DomainResult) : Prop :=
  status r = match available r with
             | Some true => Some "AVAILABLE"
             | Some false => Some "REGISTERED"
             | None => None
             end.

Definition is_sleep (e : event) : bool :=
  match e with
  | Sleep _ => true
  | _ => false
  end.

(** The pauses taken. *)
Definition sleeps (tr : trace) : list event := List.filter is_sleep tr.

(** The request [check_domain_rapidapi] sends to the "whoisapi" provider. *)
Definition whoisapi_request (self : DomainChecker) (d : string) : request :=
  {| req_url := "https://whois-lookup4.p.rapidapi.com/domain";
     req_params := [("domain", d)];
     req_headers := session_headers ++
                    [("X-RapidAPI-Key", rapidapi_key self);
                     ("X-RapidAPI-Host", Some "whois-lookup4.p.rapidapi.com")];
     req_timeout := 10 |}.

(** What one check of [d] may leave in the history after its own entry:
    entries of strategies for [d], queries about [d], requests to the
    "whoisapi" provider about [d], and pauses of half a second. *)
Definition chain_event (self : DomainChecker) (d : string) (e : event) : Prop :=
  match e with
  | Call name arg => arg = d /\ strategy_of_call name <> None
  | WhoisQuery a => a = d
  | DnsQuery a => a = d
  | HttpGet rq => rq = whoisapi_request self d
  | Sleep q => q = (1 # 2)%Q
  end.

(** The strategy a result comes from, when it comes from one. *)
Definition method_of_chain (r : DomainResult) : Prop :=
  method r = Some "whois_library" \/ method r = Some "dns_resolution"
  \/ method r = Some "rapidapi_whoisapi".

(** * The command line of [check_domain.py] *)

Module Cli.

(** A byte that continues a UTF-8 sequence; [len] counts the others. *)
Definition is_continuation (c : ascii) : bool :=
  (128 <=? nat_of_ascii c) && (nat_of_ascii c <? 192).

(** [len(s)]: the code points of a string held as UTF-8 *)
Definition py_len (s : string) : nat :=
  length (List.filter (fun c => negb (is_continuation c)) (String.list_ascii_of_string s)).

(** [f"{s:<width}"] *)
Definition ljust (width : nat) (s : string) : string :=
  s +:+ str_repeat " " (width - py_len s).

(** [f"{o}"] for an [Optional[str]] *)
Definition format_opt (o : option string) : string :=
  match o with
  | Some s => s
  | None => "None"
  end.

(** U+1F50D, U+2705, U+274C and U+2753 in UTF-8 *)
Definition magnifier : string := String "240" (String "159" (String "148" (String "141" ""))).
Definition check_mark : string := String "226" (String "156" (String "133" "")).
Definition cross_mark : string := String "226" (String "157" (String "140" "")).
Definition question_mark : string := String "226" (String "157" (String "147" "")).

Definition usage : list string :=
  [ "Usage: python check_domain.py <domain1> <domain2> ...";
    "Example: python check_domain.py google.com mynewdomain.com" ].

Definition heading : string :=
  magnifier +:+ " Domain Availability Check Results:" +:+ String Chars.newline "".

(** The [if]/[elif]/[else] on [result.available] *)
Definition status_text (result : DomainResult) : string :=
  match available result with
  | Some true => check_mark +:+ " AVAILABLE"
  | Some false => cross_mark +:+ " TAKEN"
  | None => question_mark +:+ " UNKNOWN (" +:+ format_opt (error result) +:+ ")"
  end.

(** What the body of the loop prints for one result, one entry for each
    call of [print]. *)
Definition lines_for (domain : string) (result : DomainResult) : list string :=
  [ljust 30 domain +:+ " " +:+ status_text result]
  ++ (if opt_str_falsy (method result) then []
      else [ljust 30 "" +:+ " Method: " +:+ format_opt (method result)])
  ++ [""].

Section Main.

Variable w : world.

Fixpoint report (checker : DomainChecker) (domains : list string)
    (printed : list string) : M (list string) :=
  match domains with
  | [] => ret printed
  | domain :: rest =>
      result <- check_domain w checker domain None ;;
      report checker rest (printed ++ lines_for domain result)
  end.

(** [main]: what was printed, and the exit status of the process. *)
Definition main (getenv : string -> option string) (argv : list string)
    : M (list string * Z) :=
  if (length argv <? 2)%nat then ret (usage, 1%Z)
  else
    let checker := init getenv in
    let domains := tl argv in
    printed <- report checker domains [heading] ;;
    ret (printed, 0%Z).

End Main.

End Cli.

(** * Proofs *)

(** ** The regular expression engine *)

Lemma rep_spec cls s : forall lo hi pos k,
  Re.rep cls lo hi pos s k = true <->
  exists u s', s = u ++ s' /\ forallb cls u = true /\ lo <= length u
               /\ Re.within hi (length u) /\ k (pos + length u) s' = true.
Proof.
  induction s as [|c s IH]; intros lo hi pos k; simpl.
  - split.
    + destruct lo; [|discriminate]. intros Hk.
      exists [], []. simpl. rewrite Nat.add_0_r.
      repeat split; auto. destruct hi; simpl; lia.
    + intros (u & s' & Hs & _ & Hlo & _ & Hk).
      symmetry in Hs. apply app_eq_nil in Hs as [-> ->]. simpl in *.
      rewrite Nat.add_0_r in Hk. destruct lo; [assumption | lia].
  - assert (Hstop : (match lo with 0 => k pos (c :: s) | S _ => false end) = true <->
                    lo = 0 /\ k pos (c :: s) = true).
    { destruct lo; split; try tauto; try discriminate. intros [? _]; lia. }
    split.
    + intros H.
      assert (Hcases : (cls c && Re.may_take hi = true
                        /\ Re.rep cls (Nat.pred lo) (Re.dec_bound hi) (S pos) s k = true)
                       \/ (lo = 0 /\ k pos (c :: s) = true)).
      { destruct (cls c && Re.may_take hi) eqn:E.
        - apply orb_true_iff in H as [H|H]; [left; auto | right; now apply Hstop].
        - right. now apply Hstop. }
      destruct Hcases as [[E H1] | [-> Hk]].
      * apply andb_true_iff in E as [Ec Et].
        apply IH in H1 as (u & s' & -> & Hu & Hlo & Hhi & Hk).
        exists (c :: u), s'. simpl. rewrite Ec, Hu.
        replace (pos + S (length u)) with (S pos + length u) by lia.
        repeat split; auto; [lia|].
        destruct hi as [[|h]|]; simpl in *; try discriminate; auto; lia.
      * exists [], (c :: s). simpl. rewrite Nat.add_0_r.
        repeat split; auto. destruct hi; simpl; lia.
    + intros (u & s' & Hs & Hu & Hlo & Hhi & Hk).
      destruct u as [|c' u]; simpl in *.
      * subst s'. rewrite Nat.add_0_r in Hk.
        assert (lo = 0) by lia. subst lo.
        destruct (cls c && Re.may_take hi); [apply orb_true_iff; now right | assumption].
      * injection Hs as <- ->.
        apply andb_true_iff in Hu as [Hc Hu].
        assert (Ht : Re.may_take hi = true).
        { destruct hi as [[|h]|]; simpl in *; auto; lia. }
        rewrite Hc, Ht. simpl. apply orb_true_iff. left.
        apply IH. exists u, s'.
        replace (S pos + length u) with (pos + S (length u)) by lia.
        repeat split; auto; [lia|].
        destruct hi as [h|]; simpl in *; auto; lia.
Qed.

Lemma exec_spec r : forall pos s k,
  Re.exec r pos s k = true <->
  exists pos' s', Re.consumes r pos s pos' s' /\ k pos' s' = true.
Proof.
  induction r as [cls | r1 IH1 r2 IH2 | r1 IH1 | cls lo hi | | ]; intros pos s k; simpl.
  - destruct s as [|c s].
    + split; [discriminate|]. intros (? & ? & (c & Hs & _) & _). discriminate.
    + rewrite andb_true_iff. split.
      * intros [Hc Hk]. exists (S pos), s. split; [exists c|]; auto.
      * intros (pos' & s' & (c' & Hs & Hc & ->) & Hk). injection Hs as <- <-. auto.
  - rewrite IH1. split.
    + intros (p1 & s1 & H1 & H2). apply IH2 in H2 as (p2 & s2 & H2 & Hk).
      exists p2, s2. split; [exists p1, s1|]; auto.
    + intros (p2 & s2 & (p1 & s1 & H1 & H2) & Hk).
      exists p1, s1. split; auto. apply IH2. exists p2, s2. auto.
  - rewrite orb_true_iff, IH1. split.
    + intros [(p & s' & H & Hk) | Hk].
      * exists p, s'. auto.
      * exists pos, s. auto.
    + intros (p & s' & [H | [-> ->]] & Hk); [left; exists p, s'|right]; auto.
  - rewrite rep_spec. split.
    + intros (u & s' & Hs & Hu & Hlo & Hhi & Hk).
      exists (pos + length u), s'. split; auto. exists u. auto.
    + intros (p & s' & (u & Hs & Hu & Hlo & Hhi & ->) & Hk).
      exists u, s'. auto.
  - rewrite andb_true_iff, Nat.eqb_eq. split.
    + intros [-> Hk]. exists 0, s. auto.
    + intros (p & s' & (-> & -> & ->) & Hk). auto.
  - rewrite andb_true_iff. split.
    + intros [He Hk]. exists pos, s. auto.
    + intros (p & s' & (He & -> & ->) & Hk). auto.
Qed.

(** ** Characters and strings *)

Lemma alnum_not_hyphen c : Chars.alnum c = true -> Ascii.eqb c "-" = false.
Proof.
  destruct (Ascii.eqb_spec c "-") as [->|]; [vm_compute; discriminate | reflexivity].
Qed.

Lemma alnum_is_alnum_hyphen c : Chars.alnum c = true -> Chars.alnum_hyphen c = true.
Proof. unfold Chars.alnum_hyphen. intros ->. reflexivity. Qed.

Lemma alnum_hyphen_cases c :
  Chars.alnum_hyphen c = true -> Chars.alnum c = true \/ Ascii.eqb c "-" = true.
Proof. unfold Chars.alnum_hyphen. intros H. now apply orb_true_iff in H. Qed.

Lemma chars_append a b :
  String.list_ascii_of_string (a +:+ b)
  = String.list_ascii_of_string a ++ String.list_ascii_of_string b.
Proof. induction a as [|c a IH]; simpl; [reflexivity | now rewrite IH]. Qed.

Lemma chars_length s : length (String.list_ascii_of_string s) = String.length s.
Proof. induction s as [|c s IH]; simpl; [reflexivity | now rewrite IH]. Qed.

Lemma chars_inj a b :
  String.list_ascii_of_string a = String.list_ascii_of_string b -> a = b.
Proof.
  intros H. rewrite <- (String.string_of_list_ascii_of_string a),
                    <- (String.string_of_list_ascii_of_string b).
  now rewrite H.
Qed.

Lemma ends_with_newline_chars s :
  ends_with_newline s = true <->
  exists u, String.list_ascii_of_string s = u ++ [Chars.newline].
Proof.
  induction s as [|c s IH].
  - simpl. split; [discriminate|]. intros [u Hu]. now destruct u.
  - destruct s as [|c' s].
    + simpl. split.
      * intros H. apply Ascii.eqb_eq in H as ->. now exists [].
      * intros [u Hu]. destruct u as [|x [|y u]]; simpl in Hu; try discriminate.
        injection Hu as ->. reflexivity.
    + change (ends_with_newline (String c (String c' s)))
        with (ends_with_newline (String c' s)).
      rewrite IH. split.
      * intros [u Hu]. exists (c :: u). simpl in *. now rewrite Hu.
      * intros [u Hu]. destruct u as [|x u]; simpl in Hu; [discriminate|].
        injection Hu as _ Hu. now exists u.
Qed.

(** ** The pattern *)

Lemma label_single c : Chars.alnum c = true -> is_label [c] = true.
Proof.
  intros H. unfold is_label. simpl.
  rewrite (alnum_is_alnum_hyphen _ H), (alnum_not_hyphen _ H). reflexivity.
Qed.

Lemma label_long c u c' :
  Chars.alnum c = true -> forallb Chars.alnum_hyphen u = true -> length u <= 61 ->
  Chars.alnum c' = true -> is_label (c :: u ++ [c']) = true.
Proof.
  intros Hc Hu Hlen Hc'. unfold is_label.
  assert (Hl : length (c :: u ++ [c']) = S (length u + 1)).
  { simpl. now rewrite length_app. }
  assert (Hr : rev (c :: u ++ [c']) = c' :: rev u ++ [c]).
  { simpl. rewrite rev_app_distr. reflexivity. }
  rewrite Hl, Hr.
  assert (H1 : (1 <=? S (length u + 1)) = true) by (apply Nat.leb_le; lia).
  assert (H2 : (S (length u + 1) <=? 63) = true) by (apply Nat.leb_le; lia).
  assert (H3 : forallb Chars.alnum_hyphen (c :: u ++ [c']) = true).
  { change (forallb Chars.alnum_hyphen ([c] ++ u ++ [c']) = true).
    rewrite !forallb_app, Hu. simpl.
    now rewrite (alnum_is_alnum_hyphen _ Hc), (alnum_is_alnum_hyphen _ Hc'). }
  rewrite H1, H2, H3. simpl.
  now rewrite (alnum_not_hyphen _ Hc), (alnum_not_hyphen _ Hc').
Qed.

Lemma label_inv l :
  is_label l = true ->
  (exists c, l = [c] /\ Chars.alnum c = true)
  \/ (exists c u c', l = c :: u ++ [c'] /\ Chars.alnum c = true
        /\ forallb Chars.alnum_hyphen u = true /\ length u <= 61
        /\ Chars.alnum c' = true).
Proof.
  unfold is_label. intros H.
  repeat (apply andb_true_iff in H as [H ?]).
  apply Nat.leb_le in H. apply Nat.leb_le in H3.
  apply negb_true_iff in H0, H1.
  destruct l as [|c rest]; [simpl in H; lia|].
  simpl in H2. apply andb_true_iff in H2 as [Hc Hrest].
  simpl in H1.
  assert (Hca : Chars.alnum c = true).
  { destruct (alnum_hyphen_cases _ Hc); congruence. }
  destruct (rev rest) as [|c' ru] eqn:Er.
  - left. exists c. split; auto.
    apply (f_equal (@rev ascii)) in Er. rewrite rev_involutive in Er. now subst.
  - right. apply (f_equal (@rev ascii)) in Er. rewrite rev_involutive in Er.
    simpl in Er. subst rest.
    exists c, (rev ru), c'. split; auto.
    rewrite forallb_app in Hrest. apply andb_true_iff in Hrest as [Hu Hc'].
    simpl in Hc'. rewrite andb_true_r in Hc'.
    simpl in H0. rewrite rev_app_distr in H0. simpl in H0.
    simpl in H3. rewrite length_app in H3. simpl in H3.
    repeat split; auto; [lia|].
    destruct (alnum_hyphen_cases _ Hc'); congruence.
Qed.

Lemma pattern_spec (s : list ascii) :
  Re.exec pattern 0 s (fun _ _ => true) = true <->
  exists l t nl, s = l ++ "."%char :: t ++ nl
                 /\ is_label l = true /\ is_tld t = true /\ Re.at_end nl = true.
Proof.
  rewrite exec_spec. unfold pattern. split.
  - intros (p & s' & H & _). simpl in H.
    destruct H as (p1 & s1 & (_ & Hp1 & Hs1) & H).
    destruct H as (p2 & s2 & (c & Hs2 & Hc & Hp2) & H).
    destruct H as (p3 & s3 & Hopt & H).
    destruct H as (p4 & s4 & (d & Hs4 & Hd & Hp4) & H).
    destruct H as (p5 & s5 & (t & Hs5 & Ht & Hlen & _ & Hp5) & (Hend & Hp & Hs')).
    apply Ascii.eqb_eq in Hd.
    assert (Htld : is_tld t = true).
    { unfold is_tld. rewrite Ht, andb_true_r. now apply Nat.leb_le. }
    destruct Hopt as [(p6 & s6 & (u & Hs6 & Hu & _ & Hhi & Hp6) & (c' & Hs3 & Hc' & Hp3))
                     | [Hp3 Hs3]].
    + exists (c :: u ++ [c']), t, s5. subst. repeat split; auto.
      * simpl. now rewrite <- app_assoc.
      * now apply label_long.
    + exists [c], t, s5. subst. repeat split; auto. now apply label_single.
  - intros (l & t & nl & -> & Hl & Ht & Hend).
    unfold is_tld in Ht. apply andb_true_iff in Ht as [Hlen Ht]. apply Nat.leb_le in Hlen.
    exists (length l + 1 + length t), nl. split; [|reflexivity]. simpl.
    exists 0, (l ++ "."%char :: t ++ nl). split; [auto|].
    apply label_inv in Hl as [(c & -> & Hc) | (c & u & c' & -> & Hc & Hu & Hlen' & Hc')].
    + exists 1, ("."%char :: t ++ nl). split; [exists c; auto|].
      exists 1, ("."%char :: t ++ nl). split; [right; auto|].
      exists 2, (t ++ nl). split; [exists "."%char; auto|].
      exists (2 + length t), nl. split; [exists t; repeat split; auto|].
      repeat split; auto.
    + exists 1, (u ++ c' :: "."%char :: t ++ nl). split.
      { exists c. repeat split; auto. simpl. now rewrite <- app_assoc. }
      exists (S (1 + length u)), ("."%char :: t ++ nl). split.
      { left. exists (1 + length u), (c' :: "."%char :: t ++ nl). split.
        - exists u. repeat split; auto. lia.
        - exists c'. repeat split; auto. }
      exists (S (S (1 + length u))), (t ++ nl). split; [exists "."%char; auto|].
      exists (S (S (1 + length u)) + length t), nl. split; [exists t; repeat split; auto|].
      repeat split; auto. simpl. rewrite length_app. simpl. lia.
Qed.

(** ** The validator *)

Lemma at_end_cases nl : Re.at_end nl = true -> nl = [] \/ nl = [Chars.newline].
Proof.
  destruct nl as [|c [|c' nl]]; simpl; intros H; try discriminate; auto.
  apply Ascii.eqb_eq in H. subst. auto.
Qed.

Lemma is_valid_domain_chars s :
  is_valid_domain s = true <->
  String.length s <= 253 /\
  exists l t nl, String.list_ascii_of_string s = l ++ "."%char :: t ++ nl
                 /\ is_label l = true /\ is_tld t = true /\ Re.at_end nl = true.
Proof.
  unfold is_valid_domain, Re.re_match. rewrite <- pattern_spec.
  destruct (str_falsy s) eqn:Ef; simpl.
  - destruct s; [|discriminate]. split; [discriminate|].
    intros [_ H]. vm_compute in H. discriminate.
  - destruct (253 <? String.length s) eqn:El.
    + apply Nat.ltb_lt in El. split; [discriminate | intros [? _]; lia].
    + apply Nat.ltb_ge in El. tauto.
Qed.

(** C1, as the code has it: on a string that does not end in a line feed,
    [is_valid_domain] answers true exactly when the string is one label of
    1 to 63 letters, digits or hyphens with no hyphen at either end, a dot,
    and a top-level domain of at least two letters, at most 253 characters
    in all; it is a total function, false on the empty string, and it
    decides the six sample names as the specification lists them. *)
Theorem is_valid_domain_label_dot_tld :
  (forall s : string,
      ends_with_newline s = false ->
      (is_valid_domain s = true <-> label_dot_tld s /\ String.length s <= 253))
  /\ is_valid_domain "" = false
  /\ is_valid_domain "a.com" = true
  /\ is_valid_domain (str_repeat "a" 63 +:+ ".com") = true
  /\ is_valid_domain "-bad.com" = false
  /\ is_valid_domain (str_repeat "a" 64 +:+ ".com") = false
  /\ is_valid_domain "a.c" = false.
Proof.
  split; [|repeat split; vm_compute; reflexivity].
  intros s Hnl. rewrite is_valid_domain_chars. split.
  - intros (Hlen & l & t & nl & Hs & Hl & Ht & Hend). split; [|assumption].
    apply at_end_cases in Hend as [-> | ->].
    + exists (String.string_of_list_ascii l), (String.string_of_list_ascii t).
      rewrite !String.list_ascii_of_string_of_list_ascii. repeat split; auto.
      apply chars_inj. rewrite !chars_append.
      rewrite !String.list_ascii_of_string_of_list_ascii.
      rewrite Hs, app_nil_r. reflexivity.
    + assert (Hc : ends_with_newline s = true).
      { apply ends_with_newline_chars. exists (l ++ "."%char :: t).
        rewrite Hs, <- app_assoc. reflexivity. }
      congruence.
  - intros [(l & t & -> & Hl & Ht) Hlen]. split; [assumption|].
    exists (String.list_ascii_of_string l), (String.list_ascii_of_string t), [].
    rewrite !chars_append, app_nil_r. repeat split; auto.
Qed.

Lemma is_valid_domain_label_dot_tld_witness :
  ends_with_newline "a.com" = false
  /\ (is_valid_domain "a.com" = true <-> label_dot_tld "a.com" /\ String.length "a.com" <= 253).
Proof.
  split; [reflexivity|].
  apply (proj1 is_valid_domain_label_dot_tld "a.com"). reflexivity.
Defined.

(** C1, as the specification words it, fails: a name of three labels has the
    shape [label(.label)+] and is rejected by the pattern, which has room
    for one label before the top-level domain. *)
Lemma is_valid_domain_rejects_three_labels :
  spec_shape "www.example.com" = true /\ is_valid_domain "www.example.com" = false.
Proof. split; vm_compute; reflexivity. Qed.

(** ** Traces *)

Lemma invoked_app a b : invoked (a ++ b) = invoked a ++ invoked b.
Proof.
  induction a as [|e a IH]; simpl; [reflexivity|].
  destruct e; auto. destruct (strategy_of_call name); simpl; now rewrite IH.
Qed.

Lemma checked_app a b : checked (a ++ b) = checked a ++ checked b.
Proof.
  induction a as [|e a IH]; simpl; [reflexivity|].
  destruct e; auto. destruct (String.eqb name "check_domain"); simpl; now rewrite IH.
Qed.

Lemma network_app a b : network (a ++ b) = network a ++ network b.
Proof. apply List.filter_app. Qed.

(** ** The strategies *)

Ltac unknown_or_clean :=
  unfold error_only_with_unknown; simpl;
  first [ reflexivity | intros Hav; exfalso; apply Hav; reflexivity ].

Ltac strategy_done :=
  eexists _, _; split;
  [ rewrite <- ?app_assoc; simpl; reflexivity
  | repeat split; try reflexivity; unknown_or_clean ].

Section StrategyFacts.

Variable w : world.
Variable self : DomainChecker.

Lemma check_domain_whois_run d tr :
  strategy_run "check_domain_whois" d tr (check_domain_whois w d tr).
Proof.
  unfold check_domain_whois, whois_whois, try_except, bind, emit, ask, ret.
  destruct (whois_answer w (tr ++ [Call "check_domain_whois" d]) d) as [e|entry].
  - destruct (exn_kind e); try strategy_done.
    destruct (str_contains "No match" (exn_str e)
              || str_contains "not found" (str_lower (exn_str e))); strategy_done.
  - destruct (negb (truthy (domain_name entry))); strategy_done.
Qed.

Lemma check_domain_dns_run d tr :
  strategy_run "check_domain_dns" d tr (check_domain_dns w d tr).
Proof.
  unfold check_domain_dns, gethostbyname, try_except, bind, emit, ask, ret.
  destruct (dns_answer w (tr ++ [Call "check_domain_dns" d]) d) as [e|addr].
  - destruct (exn_kind e); strategy_done.
  - strategy_done.
Qed.

Lemma check_domain_rapidapi_run d api tr :
  strategy_run "check_domain_rapidapi" d tr (check_domain_rapidapi w self d api tr).
Proof.
  unfold check_domain_rapidapi, bind at 1. unfold emit at 1.
  destruct (opt_str_falsy (rapidapi_key self)); [unfold ret; strategy_done|].
  unfold try_except.
  destruct (apis_get api (apis self)) as [cfg|]; [|unfold ret; strategy_done].
  unfold bind at 1.
  assert (Hget : forall u ps hs t0,
             exists x, session_get w u ps hs t0 (tr ++ [Call "check_domain_rapidapi" d])
                       = (x, (tr ++ [Call "check_domain_rapidapi" d])
                               ++ [HttpGet {| req_url := u; req_params := ps;
                                              req_headers := session_headers ++ hs;
                                              req_timeout := t0 |}])).
  { intros. unfold session_get, ask.
    destruct (http_answer w _ _); eexists; reflexivity. }
  destruct (String.eqb api "whoisapi") eqn:Eapi.
  - destruct (Hget (url cfg) [("domain", d)] (headers cfg) 10%Z) as [x Hx].
    rewrite Hx. clear Hx Hget.
    destruct x as [resp|e]; [|destruct (exn_kind e); unfold ret; strategy_done].
    unfold raise_for_status, json, py_in, bind, raise, ret.
    destruct ((400 <=? status_code resp)%Z && (status_code resp <? 600)%Z);
      [simpl; strategy_done|].
    destruct (json_body resp) as [e|data]; [destruct (exn_kind e); strategy_done|].
    destruct data; simpl; try strategy_done.
    + destruct (str_contains "registrar" s); simpl; [strategy_done|].
      destruct (str_contains "creation_date" s); strategy_done.
    + destruct (existsb _ l); simpl; [strategy_done|].
      destruct (existsb _ l); strategy_done.
    + destruct (dict_lookup "registrar" kvs); simpl; [strategy_done|].
      destruct (dict_lookup "creation_date" kvs); strategy_done.
  - destruct (Hget (url cfg +:+ "/" +:+ d) [] (headers cfg) 10%Z) as [x Hx].
    rewrite Hx. clear Hx Hget.
    destruct x as [resp|e]; [|destruct (exn_kind e); unfold ret; strategy_done].
    unfold raise_for_status, json, py_get, bind, raise, ret.
    destruct ((400 <=? status_code resp)%Z && (status_code resp <? 600)%Z);
      [simpl; strategy_done|].
    destruct (json_body resp) as [e|data]; [destruct (exn_kind e); strategy_done|].
    destruct data; simpl; try strategy_done.
Qed.

End StrategyFacts.

(** ** The fallback chain *)

Section ChainFacts.

Variable w : world.
Variable self : DomainChecker.

Lemma dispatch_unrecognised d m tr :
  recognised m = false -> dispatch w self d m tr = (Ok None, tr).
Proof.
  unfold recognised, dispatch. intros H.
  apply orb_false_iff in H as [H H3]. apply orb_false_iff in H as [H1 H2].
  now rewrite H1, H2, H3.
Qed.

Lemma dispatch_recognised d m tr :
  recognised m = true ->
  exists r ext name,
    dispatch w self d m tr = (Ok (Some r), tr ++ Call name d :: ext)
    /\ strategy_of_call name = Some m
    /\ String.eqb name "check_domain" = false
    /\ domain r = d /\ error_only_with_unknown r
    /\ invoked ext = [] /\ checked ext = [].
Proof.
  unfold recognised, dispatch. intros H.
  destruct (String.eqb_spec m "whois") as [->|_].
  { destruct (check_domain_whois_run w d tr) as (r & ext & E & ?).
    exists r, ext, "check_domain_whois". unfold bind, ret. rewrite E. auto. }
  destruct (String.eqb_spec m "dns") as [->|_].
  { destruct (check_domain_dns_run w d tr) as (r & ext & E & ?).
    exists r, ext, "check_domain_dns". unfold bind, ret. rewrite E. auto. }
  destruct (String.eqb_spec m "rapidapi") as [->|_]; [|discriminate].
  destruct (check_domain_rapidapi_run w self d "whoisapi" tr) as (r & ext & E & ?).
  exists r, ext, "check_domain_rapidapi". unfold bind, ret. rewrite E. auto.
Qed.

Lemma answers_inv d m tr r tr1 :
  answers w self d m tr r tr1 ->
  recognised m = true
  /\ domain r = d /\ error_only_with_unknown r
  /\ invoked tr1 = invoked tr ++ [m] /\ checked tr1 = checked tr.
Proof.
  unfold answers. intros H.
  destruct (recognised m) eqn:Em.
  - destruct (dispatch_recognised d m tr Em)
      as (r' & ext & name & E & Hn & Hc & Hd & He & Hi & Hk).
    rewrite E in H. injection H as <- <-.
    repeat split; auto.
    + rewrite invoked_app. simpl. now rewrite Hn, Hi.
    + rewrite checked_app. simpl. now rewrite Hc, Hk, app_nil_r.
  - rewrite (dispatch_unrecognised d m tr Em) in H. discriminate.
Qed.

Lemma attempt_skip d m last tr :
  recognised m = false -> attempt w self d m last tr = (Ok (Next last), tr).
Proof.
  intros H. unfold attempt, try_except, bind.
  now rewrite (dispatch_unrecognised d m tr H).
Qed.

Lemma attempt_definitive d m last tr r tr1 :
  answers w self d m tr r tr1 -> definitive r = true ->
  attempt w self d m last tr = (Ok (Return_ r), tr1).
Proof.
  unfold answers, attempt, try_except, bind. intros -> ->. reflexivity.
Qed.

Lemma attempt_not_definitive d m last tr r tr1 :
  answers w self d m tr r tr1 -> definitive r = false ->
  attempt w self d m last tr = (Ok (Next (Some r)), tr1 ++ [Sleep (1 # 2)]).
Proof.
  unfold answers, attempt, try_except, bind. intros -> ->. reflexivity.
Qed.

Lemma for_methods_falls_through d pre rest : forall last tr last1 tr1,
  falls_through w self d pre last tr last1 tr1 ->
  for_methods w self d (pre ++ rest) last tr = for_methods w self d rest last1 tr1.
Proof.
  intros last tr last1 tr1 H.
  induction H as [last tr | m ms last tr last' tr' Hm _ IH
                 | m ms last tr r tr1 last' tr' Ha Hd _ IH]; simpl.
  - reflexivity.
  - unfold bind. now rewrite (attempt_skip d m last tr Hm).
  - unfold bind. now rewrite (attempt_not_definitive d m last tr r tr1 Ha Hd).
Qed.

Lemma falls_through_trace d ms : forall last tr last' tr',
  falls_through w self d ms last tr last' tr' ->
  invoked tr' = invoked tr ++ List.filter recognised ms /\ checked tr' = checked tr.
Proof.
  intros last tr last' tr' H.
  induction H as [last tr | m ms last tr last' tr' Hm _ [IHi IHc]
                 | m ms last tr r tr1 last' tr' Ha Hd _ [IHi IHc]]; simpl.
  - now rewrite app_nil_r.
  - now rewrite Hm.
  - destruct (answers_inv _ _ _ _ _ Ha) as (Hm & _ & _ & Hi & Hc).
    rewrite Hm. rewrite invoked_app, Hi in IHi. rewrite checked_app, Hc in IHc.
    simpl in *. rewrite app_nil_r in *. rewrite <- app_assoc in IHi. auto.
Qed.

Lemma falls_through_last d (P : DomainResult -> Prop) ms : forall last tr last' tr',
  falls_through w self d ms last tr last' tr' ->
  (forall r tr0 tr1 m, answers w self d m tr0 r tr1 -> P r) ->
  (forall r, last = Some r -> P r) ->
  forall r, last' = Some r -> P r.
Proof.
  intros last tr last' tr' H HP.
  induction H as [last tr | m ms last tr last' tr' Hm _ IH
                 | m ms last tr r tr1 last' tr' Ha Hd _ IH]; auto.
  intros _. apply IH. intros r0 [= <-]. eapply HP, Ha.
Qed.

(** Every run of the loop either stops at a first definitive answer or
    falls through the whole list. *)
Lemma for_methods_run d ms : forall last tr,
  (exists pre m post last1 tr1 r tr2,
      ms = pre ++ m :: post
      /\ falls_through w self d pre last tr last1 tr1
      /\ answers w self d m tr1 r tr2 /\ definitive r = true
      /\ for_methods w self d ms last tr = (Ok (Return_ r), tr2))
  \/ (exists last' tr',
      falls_through w self d ms last tr last' tr'
      /\ for_methods w self d ms last tr = (Ok (Next last'), tr')).
Proof.
  induction ms as [|m ms IH]; intros last tr.
  - right. exists last, tr. split; [constructor | reflexivity].
  - destruct (recognised m) eqn:Em.
    + destruct (dispatch_recognised d m tr Em) as (r & ext & name & E & _).
      destruct (definitive r) eqn:Ed.
      * left. exists [], m, ms, last, tr, r, (tr ++ Call name d :: ext).
        repeat split; auto; [constructor|].
        simpl. unfold bind.
        now rewrite (attempt_definitive d m last tr r _ E Ed).
      * destruct (IH (Some r) ((tr ++ Call name d :: ext) ++ [Sleep (1 # 2)]))
          as [(pre & m' & post & last1 & tr1 & r' & tr2 & -> & Hft & Ha & Hd & Hrun)
             | (last' & tr' & Hft & Hrun)].
        -- left. exists (m :: pre), m', post, last1, tr1, r', tr2.
           repeat split; auto.
           ++ eapply ft_tried; eauto.
           ++ simpl. unfold bind.
              now rewrite (attempt_not_definitive d m last tr r _ E Ed).
        -- right. exists last', tr'. split.
           ++ eapply ft_tried; eauto.
           ++ simpl. unfold bind.
              now rewrite (attempt_not_definitive d m last tr r _ E Ed).
    + destruct (IH last tr)
        as [(pre & m' & post & last1 & tr1 & r' & tr2 & -> & Hft & Ha & Hd & Hrun)
           | (last' & tr' & Hft & Hrun)].
      * left. exists (m :: pre), m', post, last1, tr1, r', tr2.
        repeat split; auto.
        -- now apply ft_skip.
        -- simpl. unfold bind. now rewrite (attempt_skip d m last tr Em).
      * right. exists last', tr'. split.
        -- now apply ft_skip.
        -- simpl. unfold bind. now rewrite (attempt_skip d m last tr Em).
Qed.

Lemma check_domain_valid d ms tr :
  is_valid_domain d = true ->
  check_domain w self d (Some ms) tr =
  match for_methods w self d ms None (tr ++ [Call "check_domain" d]) with
  | (Ok (Return_ r), tr') => (Ok r, tr')
  | (Ok (Next (Some r)), tr') => (Ok r, tr')
  | (Ok (Next None), tr') => (Ok (all_failed_result d), tr')
  | (Raised e, tr') => (Raised e, tr')
  end.
Proof.
  intros Hv. unfold check_domain, bind, emit. rewrite Hv. simpl.
  destruct (for_methods w self d ms None (tr ++ [Call "check_domain" d])) as [[f|e] tr'];
    [|reflexivity].
  destruct f as [r|[r|]]; reflexivity.
Qed.

Lemma check_domain_invalid d methods tr :
  is_valid_domain d = false ->
  check_domain w self d methods tr = (Ok (invalid_result d), tr ++ [Call "check_domain" d]).
Proof. intros Hv. unfold check_domain, bind, emit. rewrite Hv. reflexivity. Qed.

Lemma check_domain_default d tr :
  check_domain w self d None tr = check_domain w self d (Some default_methods) tr.
Proof. reflexivity. Qed.

(** [check_domain] always returns a result, for the name it was given, and
    logs one check. *)
Lemma check_domain_run d methods tr :
  exists r tr',
    check_domain w self d methods tr = (Ok r, tr')
    /\ domain r = d /\ error_only_with_unknown r
    /\ checked tr' = checked tr ++ [d].
Proof.
  destruct (is_valid_domain d) eqn:Hv.
  - assert (Hms : exists ms, check_domain w self d methods tr
                             = check_domain w self d (Some ms) tr).
    { destruct methods as [ms|]; [now exists ms | now exists default_methods]. }
    destruct Hms as [ms ->]. rewrite (check_domain_valid d ms tr Hv).
    assert (Hc0 : checked (tr ++ [Call "check_domain" d]) = checked tr ++ [d]).
    { now rewrite checked_app. }
    destruct (for_methods_run d ms None (tr ++ [Call "check_domain" d]))
      as [(pre & m & post & last1 & tr1 & r & tr2 & _ & Hft & Ha & _ & ->)
         | (last' & tr' & Hft & ->)].
    + exists r, tr2. destruct (answers_inv _ _ _ _ _ Ha) as (_ & Hd & He & _ & Hc).
      destruct (falls_through_trace _ _ _ _ _ _ Hft) as [_ Hc'].
      repeat split; auto. congruence.
    + destruct (falls_through_trace _ _ _ _ _ _ Hft) as [_ Hc'].
      destruct last' as [r|].
      * exists r, tr'.
        assert (HP : domain r = d /\ error_only_with_unknown r).
        { apply (falls_through_last d (fun r => domain r = d /\ error_only_with_unknown r)
                   _ _ _ _ _ Hft); auto.
          - intros r0 tr0 tr1 m Ha. destruct (answers_inv _ _ _ _ _ Ha) as (_ & ? & ? & _).
            auto.
          - discriminate. }
        destruct HP. repeat split; auto. congruence.
      * exists (all_failed_result d), tr'. repeat split; auto; [unknown_or_clean | congruence].
  - rewrite (check_domain_invalid d methods tr Hv).
    exists (invalid_result d), (tr ++ [Call "check_domain" d]).
    repeat split; auto; [unknown_or_clean | now rewrite checked_app].
Qed.

End ChainFacts.

Lemma falls_through_unrecognised w self d ms last tr :
  Forall (fun m => recognised m = false) ms ->
  falls_through w self d ms last tr last tr.
Proof.
  induction 1 as [|m ms Hm _ IH]; [constructor | now apply ft_skip].
Qed.

Lemma invoked_check_call tr d :
  invoked (tr ++ [Call "check_domain" d]) = invoked tr.
Proof. rewrite invoked_app. simpl. apply app_nil_r. Qed.

(** * The claims on the fallback chain *)

(** C2: on a valid domain, when the methods before [m] in the list have
    been gone through without a definitive answer and the strategy named [m]
    then answers [r] with [available] not unknown and no error,
    [check_domain] returns [r] at once, in the state that strategy left:
    whatever methods follow [m] play no part.  The strategies entered are
    the known names before [m], in the order of the list, then [m], and no
    other.  On every list of methods the call returns, and the strategies
    it entered are the first so many of the known names of the list, in the
    order of the list. *)
Theorem check_domain_first_definitive_wins
    (w : world) (self : DomainChecker) (d : string) :
  is_valid_domain d = true ->
  (forall pre m post tr last tr1 r tr2,
      falls_through w self d pre None (tr ++ [Call "check_domain" d]) last tr1 ->
      answers w self d m tr1 r tr2 ->
      definitive r = true ->
      check_domain w self d (Some (pre ++ m :: post)) tr = (Ok r, tr2)
      /\ invoked tr2 = invoked tr ++ List.filter recognised pre ++ [m])
  /\ (forall ms tr, exists r tr' k,
      check_domain w self d (Some ms) tr = (Ok r, tr')
      /\ invoked tr' = invoked tr ++ firstn k (List.filter recognised ms)).
Proof.
  intros Hv.
  assert (Hfirst : forall pre m post tr last tr1 r tr2,
             falls_through w self d pre None (tr ++ [Call "check_domain" d]) last tr1 ->
             answers w self d m tr1 r tr2 ->
             definitive r = true ->
             check_domain w self d (Some (pre ++ m :: post)) tr = (Ok r, tr2)
             /\ invoked tr2 = invoked tr ++ List.filter recognised pre ++ [m]).
  { intros pre m post tr last tr1 r tr2 Hft Ha Hd. split.
    - rewrite (check_domain_valid w self d _ tr Hv).
      rewrite (for_methods_falls_through w self d pre (m :: post) _ _ _ _ Hft).
      simpl. unfold bind.
      now rewrite (attempt_definitive w self d m last tr1 r tr2 Ha Hd).
    - destruct (falls_through_trace w self d _ _ _ _ _ Hft) as [Hi _].
      destruct (answers_inv w self d m tr1 r tr2 Ha) as (_ & _ & _ & Hi2 & _).
      rewrite Hi2, Hi, invoked_check_call. now rewrite <- app_assoc. }
  split; [exact Hfirst|].
  intros ms tr.
  destruct (for_methods_run w self d ms None (tr ++ [Call "check_domain" d]))
    as [(pre & m & post & last1 & tr1 & r & tr2 & -> & Hft & Ha & Hd & _)
       | (last' & tr' & Hft & Hrun)].
  - destruct (Hfirst pre m post tr last1 tr1 r tr2 Hft Ha Hd) as [E Hi].
    destruct (answers_inv w self d m tr1 r tr2 Ha) as (Hm & _).
    exists r, tr2, (length (List.filter recognised pre ++ [m])).
    split; [exact E|]. rewrite Hi, List.filter_app. cbn [List.filter]. rewrite Hm.
    change (m :: List.filter recognised post) with ([m] ++ List.filter recognised post).
    rewrite (app_assoc (List.filter recognised pre) [m]).
    rewrite firstn_app, firstn_all, Nat.sub_diag. cbn [firstn].
    now rewrite app_nil_r.
  - destruct (falls_through_trace w self d _ _ _ _ _ Hft) as [Hi _].
    rewrite invoked_check_call in Hi.
    rewrite (check_domain_valid w self d ms tr Hv), Hrun.
    exists (match last' with Some r => r | None => all_failed_result d end), tr',
           (length (List.filter recognised ms)).
    rewrite firstn_all. split; [|exact Hi]. now destruct last'.
Qed.

Lemma check_domain_first_definitive_wins_witness :
  check_domain world_dns_only checker_without_key "a.com"
    (Some (["whois"] ++ "dns" :: ["rapidapi"])) []
  = (Ok {| domain := "a.com"; available := Some true; status := Some "AVAILABLE";
           error := None; details := Some (PyDict [("dns_resolves", PyBool false)]);
           method := Some "dns_resolution" |},
     [Call "check_domain" "a.com"; Call "check_domain_whois" "a.com"; WhoisQuery "a.com";
      Sleep (1 # 2); Call "check_domain_dns" "a.com"; DnsQuery "a.com"])
  /\ invoked [Call "check_domain" "a.com"; Call "check_domain_whois" "a.com";
              WhoisQuery "a.com"; Sleep (1 # 2); Call "check_domain_dns" "a.com";
              DnsQuery "a.com"]
     = invoked [] ++ List.filter recognised ["whois"] ++ ["dns"].
Proof.
  eapply (proj1 (check_domain_first_definitive_wins world_dns_only checker_without_key
                   "a.com" eq_refl)
            ["whois"] "dns" ["rapidapi"] []).
  - eapply ft_tried; [reflexivity | reflexivity | apply ft_done].
  - reflexivity.
  - reflexivity.
Defined.

(** C3: on a valid domain, when the strategy named [m] is the last one the
    list names, no strategy before it gave a definitive answer and its own
    result [r] is not definitive either, [check_domain] returns [r] itself;
    and when the list names no strategy at all, as the empty list does, it
    returns the result with [available] unknown and the error
    "All methods failed". *)
Theorem check_domain_exhausted_returns_last
    (w : world) (self : DomainChecker) (d : string) :
  is_valid_domain d = true ->
  (forall pre m post tr last tr1 r tr2,
      falls_through w self d pre None (tr ++ [Call "check_domain" d]) last tr1 ->
      answers w self d m tr1 r tr2 ->
      definitive r = false ->
      Forall (fun m' => recognised m' = false) post ->
      check_domain w self d (Some (pre ++ m :: post)) tr = (Ok r, tr2 ++ [Sleep (1 # 2)]))
  /\ (forall ms tr,
      Forall (fun m' => recognised m' = false) ms ->
      check_domain w self d (Some ms) tr
      = (Ok {| domain := d; available := None; status := None;
               error := Some "All methods failed"; details := None; method := None |},
         tr ++ [Call "check_domain" d]))
  /\ (forall tr,
      check_domain w self d (Some []) tr
      = (Ok {| domain := d; available := None; status := None;
               error := Some "All methods failed"; details := None; method := None |},
         tr ++ [Call "check_domain" d])).
Proof.
  intros Hv.
  assert (Hnone : forall ms tr,
             Forall (fun m' => recognised m' = false) ms ->
             check_domain w self d (Some ms) tr
             = (Ok (all_failed_result d), tr ++ [Call "check_domain" d])).
  { intros ms tr Hms. rewrite (check_domain_valid w self d ms tr Hv).
    pose proof (falls_through_unrecognised w self d ms None
                  (tr ++ [Call "check_domain" d]) Hms) as Hft.
    pose proof (for_methods_falls_through w self d ms [] _ _ _ _ Hft) as E.
    rewrite app_nil_r in E. rewrite E. reflexivity. }
  split; [|split].
  - intros pre m post tr last tr1 r tr2 Hft Ha Hd Hpost.
    rewrite (check_domain_valid w self d _ tr Hv).
    rewrite (for_methods_falls_through w self d pre (m :: post) _ _ _ _ Hft).
    simpl. unfold bind.
    rewrite (attempt_not_definitive w self d m last tr1 r tr2 Ha Hd).
    pose proof (falls_through_unrecognised w self d post (Some r)
                  (tr2 ++ [Sleep (1 # 2)]) Hpost) as Hft'.
    pose proof (for_methods_falls_through w self d post [] _ _ _ _ Hft') as E.
    rewrite app_nil_r in E. rewrite E. reflexivity.
  - exact Hnone.
  - intros tr. apply Hnone. constructor.
Qed.

Lemma check_domain_exhausted_returns_last_witness :
  check_domain world_offline checker_without_key "a.com"
    (Some (["whois"; "dns"] ++ "rapidapi" :: ["carrier-pigeon"])) []
  = (Ok {| domain := "a.com"; available := None; status := None;
           error := Some "RapidAPI key not found in environment variables";
           details := None; method := Some "rapidapi_whoisapi" |},
     [Call "check_domain" "a.com";
      Call "check_domain_whois" "a.com"; WhoisQuery "a.com"; Sleep (1 # 2);
      Call "check_domain_dns" "a.com"; DnsQuery "a.com"; Sleep (1 # 2);
      Call "check_domain_rapidapi" "a.com"] ++ [Sleep (1 # 2)]).
Proof.
  eapply (proj1 (check_domain_exhausted_returns_last world_offline checker_without_key
                   "a.com" eq_refl)
            ["whois"; "dns"] "rapidapi" ["carrier-pigeon"] []).
  - eapply ft_tried; [reflexivity | reflexivity |].
    eapply ft_tried; [reflexivity | reflexivity | apply ft_done].
  - reflexivity.
  - reflexivity.
  - repeat constructor.
Defined.

(** C10: on a valid domain, a list of methods that holds none of the names
    "whois", "dns" and "rapidapi" is passed over name by name: no strategy
    is entered, [last_result] stays unset, and the call ends as it does on
    the empty list, with [available] unknown and the error
    "All methods failed". *)
Theorem check_domain_unknown_methods_only
    (w : world) (self : DomainChecker) (d : string) (ms : list string) (tr : trace) :
  is_valid_domain d = true ->
  Forall (fun m => recognised m = false) ms ->
  for_methods w self d ms None (tr ++ [Call "check_domain" d])
  = (Ok (Next None), tr ++ [Call "check_domain" d])
  /\ check_domain w self d (Some ms) tr
     = (Ok {| domain := d; available := None; status := None;
              error := Some "All methods failed"; details := None; method := None |},
        tr ++ [Call "check_domain" d])
  /\ check_domain w self d (Some ms) tr = check_domain w self d (Some []) tr.
Proof.
  intros Hv Hms.
  pose proof (falls_through_unrecognised w self d ms None
                (tr ++ [Call "check_domain" d]) Hms) as Hft.
  pose proof (for_methods_falls_through w self d ms [] _ _ _ _ Hft) as E.
  rewrite app_nil_r in E. simpl in E.
  split; [exact E|].
  rewrite !(check_domain_valid w self d _ tr Hv), E. simpl. split; reflexivity.
Qed.

Lemma check_domain_unknown_methods_only_witness :
  for_methods world_offline checker_without_key "a.com" ["ping"; "WHOIS"] None
    ([] ++ [Call "check_domain" "a.com"])
  = (Ok (Next None), [] ++ [Call "check_domain" "a.com"])
  /\ check_domain world_offline checker_without_key "a.com" (Some ["ping"; "WHOIS"]) []
     = (Ok {| domain := "a.com"; available := None; status := None;
              error := Some "All methods failed"; details := None; method := None |},
        [] ++ [Call "check_domain" "a.com"])
  /\ check_domain world_offline checker_without_key "a.com" (Some ["ping"; "WHOIS"]) []
     = check_domain world_offline checker_without_key "a.com" (Some []) [].
Proof.
  apply (check_domain_unknown_methods_only world_offline checker_without_key
           "a.com" ["ping"; "WHOIS"] []).
  - reflexivity.
  - repeat constructor.
Defined.

(** * The claims on the results of the strategies *)

(** C7: each of the three strategies, and [check_domain] with any list of
    methods, returns a result, and in that result an [available] of true or
    false comes with no [error]: an error only goes with unknown. *)
Theorem results_error_only_with_unknown (w : world) (self : DomainChecker) (d : string) :
  (forall tr, exists r tr',
      check_domain_whois w d tr = (Ok r, tr') /\ error_only_with_unknown r)
  /\ (forall tr, exists r tr',
      check_domain_dns w d tr = (Ok r, tr') /\ error_only_with_unknown r)
  /\ (forall api tr, exists r tr',
      check_domain_rapidapi w self d api tr = (Ok r, tr') /\ error_only_with_unknown r)
  /\ (forall methods tr, exists r tr',
      check_domain w self d methods tr = (Ok r, tr') /\ error_only_with_unknown r).
Proof.
  repeat split.
  - intros tr. destruct (check_domain_whois_run w d tr) as (r & ext & E & _ & He & _).
    rewrite E. eauto.
  - intros tr. destruct (check_domain_dns_run w d tr) as (r & ext & E & _ & He & _).
    rewrite E. eauto.
  - intros api tr.
    destruct (check_domain_rapidapi_run w self d api tr) as (r & ext & E & _ & He & _).
    rewrite E. eauto.
  - intros methods tr.
    destruct (check_domain_run w self d methods tr) as (r & tr' & E & _ & He & _).
    rewrite E. eauto.
Qed.

(** C8: with no credential in the environment, [check_domain_rapidapi]
    returns at once a result with [available] unknown and the error
    "RapidAPI key not found in environment variables"; the only thing it
    leaves in the history is its own entry, so nothing went to the network. *)
Theorem check_domain_rapidapi_without_credential
    (w : world) (getenv : string -> option string) (d api : string) (tr : trace) :
  getenv "RAPIDAPI_KEY" = None ->
  check_domain_rapidapi w (init getenv) d api tr
  = (Ok {| domain := d; available := None; status := None;
           error := Some "RapidAPI key not found in environment variables";
           details := None; method := Some ("rapidapi_" +:+ api) |},
     tr ++ [Call "check_domain_rapidapi" d])
  /\ network (tr ++ [Call "check_domain_rapidapi" d]) = network tr.
Proof.
  intros Hkey. split.
  - unfold check_domain_rapidapi, init, bind, emit, ret. simpl. rewrite Hkey. reflexivity.
  - rewrite network_app. simpl. apply app_nil_r.
Qed.

Lemma check_domain_rapidapi_without_credential_witness :
  check_domain_rapidapi world_empty_json (init (fun _ => None)) "a.com" "whoisapi" []
  = (Ok {| domain := "a.com"; available := None; status := None;
           error := Some "RapidAPI key not found in environment variables";
           details := None; method := Some ("rapidapi_" +:+ "whoisapi") |},
     [] ++ [Call "check_domain_rapidapi" "a.com"])
  /\ network ([] ++ [Call "check_domain_rapidapi" "a.com"]) = network [].
Proof.
  apply (check_domain_rapidapi_without_credential world_empty_json (fun _ => None)
           "a.com" "whoisapi" []).
  reflexivity.
Defined.

(** C9: with a credential configured, when the request to the "domaindb"
    provider is answered with a 2xx status and a JSON object that has no
    "registered" key, [check_domain_rapidapi] reports [available] false with
    status REGISTERED, without an error: the missing field counts as
    registered. *)
Theorem check_domain_rapidapi_domaindb_missing_registered
    (w : world) (self : DomainChecker) (d : string) (tr : trace)
    (resp : response) (kvs : list (string * pyval)) :
  let rq := {| req_url := "https://domaindb.p.rapidapi.com" +:+ "/" +:+ d;
               req_params := [];
               req_headers :=
                 session_headers ++
                 [("X-RapidAPI-Key", rapidapi_key self);
                  ("X-RapidAPI-Host", Some "domaindb.p.rapidapi.com")];
               req_timeout := 10 |} in
  opt_str_falsy (rapidapi_key self) = false ->
  http_answer w (tr ++ [Call "check_domain_rapidapi" d]) rq = inr resp ->
  (200 <= status_code resp < 300)%Z ->
  json_body resp = inr (PyDict kvs) ->
  dict_lookup "registered" kvs = None ->
  check_domain_rapidapi w self d "domaindb" tr
  = (Ok {| domain := d; available := Some false; status := Some "REGISTERED";
           error := None; details := Some (PyDict kvs);
           method := Some "rapidapi_domaindb" |},
     tr ++ [Call "check_domain_rapidapi" d; HttpGet rq]).
Proof.
  intros rq Hkey Hans Hst Hjson Hreg. subst rq.
  assert (Hcfg : apis_get "domaindb" (apis self)
                 = Some {| url := "https://domaindb.p.rapidapi.com";
                           headers := [("X-RapidAPI-Key", rapidapi_key self);
                                       ("X-RapidAPI-Host", Some "domaindb.p.rapidapi.com")] |})
    by reflexivity.
  assert (Hs : ((400 <=? status_code resp)%Z && (status_code resp <? 600)%Z) = false).
  { apply andb_false_iff. left. apply Z.leb_gt. lia. }
  unfold check_domain_rapidapi, bind at 1. unfold emit at 1. rewrite Hkey.
  unfold try_except. rewrite Hcfg.
  change (String.eqb "domaindb" "whoisapi") with false. cbv beta iota.
  unfold bind at 1. unfold session_get, ask. cbn [url headers].
  rewrite Hans.
  unfold raise_for_status, json, py_get, bind, raise, ret.
  rewrite Hs, Hjson, Hreg. cbn [truthy negb fst snd]. rewrite <- app_assoc. reflexivity.
Qed.

Lemma check_domain_rapidapi_domaindb_missing_registered_witness :
  check_domain_rapidapi world_empty_json checker_with_key "a.com" "domaindb" []
  = (Ok {| domain := "a.com"; available := Some false; status := Some "REGISTERED";
           error := None; details := Some (PyDict []);
           method := Some "rapidapi_domaindb" |},
     [] ++ [Call "check_domain_rapidapi" "a.com";
            HttpGet {| req_url := "https://domaindb.p.rapidapi.com" +:+ "/" +:+ "a.com";
                       req_params := [];
                       req_headers :=
                         session_headers ++
                         [("X-RapidAPI-Key", rapidapi_key checker_with_key);
                          ("X-RapidAPI-Host", Some "domaindb.p.rapidapi.com")];
                       req_timeout := 10 |}]).
Proof.
  apply (check_domain_rapidapi_domaindb_missing_registered world_empty_json
           checker_with_key "a.com" []
           {| status_code := 200; http_error := ""; json_body := inr (PyDict []) |} []).
  - reflexivity.
  - reflexivity.
  - simpl. lia.
  - reflexivity.
  - reflexivity.
Defined.

(** * The claims on the batch, suggestion and search helpers *)

Lemma checked_sleep tr q : checked (tr ++ [Sleep q]) = checked tr.
Proof. rewrite checked_app. simpl. apply app_nil_r. Qed.

Lemma check_multiple_loop_run w self delay ds : forall acc tr,
  exists rs tr',
    check_multiple_loop w self ds delay acc tr = (Ok (acc ++ rs), tr')
    /\ map domain rs = ds /\ checked tr' = checked tr ++ ds.
Proof.
  induction ds as [|d ds IH]; intros acc tr.
  - exists [], tr. simpl. rewrite !app_nil_r. auto.
  - destruct (check_domain_run w self d None tr) as (r & tr1 & E & Hd & _ & Hc).
    simpl. unfold bind at 1. rewrite E.
    destruct (Qlt_le_dec 0 delay).
    + destruct (IH (acc ++ [r]) (tr1 ++ [Sleep delay])) as (rs & tr' & E' & Hm & Hc').
      exists (r :: rs), tr'. unfold bind, sleep, emit. rewrite E'.
      rewrite <- app_assoc. simpl. repeat split; [now rewrite Hd, Hm|].
      rewrite Hc', checked_sleep, Hc, <- app_assoc. reflexivity.
    + destruct (IH (acc ++ [r]) tr1) as (rs & tr' & E' & Hm & Hc').
      exists (r :: rs), tr'. unfold bind, ret. rewrite E'.
      rewrite <- app_assoc. simpl. repeat split; [now rewrite Hd, Hm|].
      rewrite Hc', Hc, <- app_assoc. reflexivity.
Qed.

(** C4: on any list of domains and with any delay, [check_multiple_domains]
    returns a list of results, never an exception: as many results as
    domains, the i-th result being for the i-th domain, after one check per
    domain in the order of the list.  A single check, with any methods,
    always returns a result for its domain and never raises. *)
Theorem check_multiple_domains_one_result_per_domain
    (w : world) (self : DomainChecker) (domains : list string) (delay : Q) (tr : trace) :
  (exists results tr',
      check_multiple_domains w self domains delay tr = (Ok results, tr')
      /\ length results = length domains
      /\ map domain results = domains
      /\ checked tr' = checked tr ++ domains)
  /\ (forall d methods tr0, exists r tr',
      check_domain w self d methods tr0 = (Ok r, tr') /\ domain r = d).
Proof.
  split.
  - destruct (check_multiple_loop_run w self delay domains [] tr)
      as (rs & tr' & E & Hm & Hc).
    exists rs, tr'. unfold check_multiple_domains. rewrite E. repeat split; auto.
    rewrite <- Hm. now rewrite length_map.
  - intros d methods tr0.
    destruct (check_domain_run w self d methods tr0) as (r & tr' & E & Hd & _).
    exists r, tr'. auto.
Qed.

Lemma fold_left_snoc {A B} (f : A -> B) (l : list A) : forall init,
  fold_left (fun acc x => acc ++ [f x]) l init = init ++ map f l.
Proof.
  induction l as [|x l IH]; intros init; simpl.
  - now rewrite app_nil_r.
  - rewrite IH, <- app_assoc. reflexivity.
Qed.

(** C5: the suggestions are [base.tld] for every requested TLD, in order,
    then get<base>, <base>app and <base>hq, each with the first four
    requested TLDs; for "foo" with com and io these are eight names, all
    different. *)
Theorem generate_domain_suggestions_shape (base_name : string) (tlds : option (list string)) :
  let requested := match tlds with None => default_tlds | Some ts => ts end in
  generate_domain_suggestions base_name tlds
  = map (fun tld => base_name +:+ "." +:+ tld) requested
    ++ map (fun tld => ("get" +:+ base_name) +:+ "." +:+ tld) (firstn 4 requested)
    ++ map (fun tld => (base_name +:+ "app") +:+ "." +:+ tld) (firstn 4 requested)
    ++ map (fun tld => (base_name +:+ "hq") +:+ "." +:+ tld) (firstn 4 requested)
  /\ generate_domain_suggestions "foo" (Some ["com"; "io"])
     = ["foo.com"; "foo.io"; "getfoo.com"; "getfoo.io";
        "fooapp.com"; "fooapp.io"; "foohq.com"; "foohq.io"]
  /\ length (generate_domain_suggestions "foo" (Some ["com"; "io"])) = 8
  /\ List.NoDup (generate_domain_suggestions "foo" (Some ["com"; "io"])).
Proof.
  intros requested. split; [|split; [reflexivity | split; [reflexivity|]]].
  - unfold generate_domain_suggestions. fold requested.
    cbn [firstn fold_left]. rewrite !fold_left_snoc. simpl.
    rewrite <- !app_assoc. reflexivity.
  - change (List.NoDup ["foo.com"; "foo.io"; "getfoo.com"; "getfoo.io";
                        "fooapp.com"; "fooapp.io"; "foohq.com"; "foohq.io"]).
    repeat (apply List.NoDup_cons; [simpl; intuition discriminate|]).
    apply List.NoDup_nil.
Qed.

Section SearchFacts.

Variable w : world.
Variable self : DomainChecker.
Variable max_results : Z.

Lemma search_loop_run sugs : forall acc tr,
  exists out tr' k,
    search_loop w self sugs max_results acc tr = (Ok (acc ++ out), tr')
    /\ Forall (fun r => available r = Some true) out
    /\ sublist (map domain out) sugs
    /\ checked tr' = checked tr ++ firstn k sugs
    /\ (k < length sugs -> (max_results <= Z.of_nat (length (acc ++ out)))%Z)
    /\ (Z.of_nat (length (acc ++ out)) <= Z.max max_results (Z.of_nat (length acc)))%Z.
Proof.
  induction sugs as [|d sugs IH]; intros acc tr.
  - exists [], tr, 0. simpl. rewrite !app_nil_r.
    repeat split; auto; try lia; constructor.
  - simpl. destruct (max_results <=? Z.of_nat (length acc))%Z eqn:Emax.
    + apply Z.leb_le in Emax. exists [], tr, 0. simpl. rewrite !app_nil_r.
      repeat split; auto; try lia; apply sublist_nil_l.
    + apply Z.leb_gt in Emax.
      destruct (check_domain_run w self d None tr) as (r & tr1 & E & Hd & _ & Hc).
      unfold bind at 1. rewrite E. unfold bind at 1. unfold sleep, emit.
      set (acc' := match available r with
                   | Some true => acc ++ [r]
                   | _ => acc
                   end).
      destruct (IH acc' (tr1 ++ [Sleep (4 # 5)]))
        as (out & tr' & k & E' & Hav & Hsub & Hck & Hstop & Hlen).
      rewrite checked_sleep, Hc, <- app_assoc in Hck.
      destruct (available r) as [[|]|] eqn:Er; subst acc'.
      * exists (r :: out), tr', (S k).
        assert (Happ : (acc ++ [r]) ++ out = acc ++ r :: out)
          by now rewrite <- app_assoc.
        rewrite Happ in E', Hstop, Hlen.
        rewrite !length_app in Hlen. cbn [length] in Hlen.
        split; [exact E'|]. split; [now constructor|].
        split; [cbn [map]; rewrite Hd; now apply sublist_skip|].
        split; [exact Hck|].
        split; [intros Hk; apply Hstop; cbn [length] in Hk; lia|].
        rewrite length_app. cbn [length]. lia.
      * exists out, tr', (S k). simpl. repeat split; auto.
        -- now apply sublist_cons.
        -- intros Hk. apply Hstop. lia.
      * exists out, tr', (S k). simpl. repeat split; auto.
        -- now apply sublist_cons.
        -- intros Hk. apply Hstop. lia.
Qed.

(** Once the quota is reached on a front part of the suggestions, what
    follows it is not looked at. *)
Lemma search_loop_quota pre post : forall acc tr out tr',
  search_loop w self pre max_results acc tr = (Ok out, tr') ->
  (max_results <= Z.of_nat (length out))%Z ->
  search_loop w self (pre ++ post) max_results acc tr = (Ok out, tr').
Proof.
  induction pre as [|d pre IH]; intros acc tr out tr' Hrun Hq.
  - simpl in Hrun. injection Hrun as <- <-. simpl.
    destruct post as [|d post]; [reflexivity|]. simpl.
    apply Z.leb_le in Hq. now rewrite Hq.
  - simpl in *. destruct (max_results <=? Z.of_nat (length acc))%Z; [assumption|].
    unfold bind at 1. unfold bind at 1 in Hrun.
    destruct (check_domain w self d None tr) as [[r|e] tr1]; [|discriminate].
    unfold bind at 1. unfold bind at 1 in Hrun.
    unfold sleep, emit in *. now apply IH.
Qed.

End SearchFacts.

(** C6: [search_available_domains] checks the generated suggestions from
    the first on, in their order, and returns, in that order, results whose
    [available] is true, never more than [max_results] of them; it stops
    before the end of the suggestions only with [max_results] results in
    hand, and once a front part of the suggestions has yielded
    [max_results] results nothing after it is checked: the search ends with
    those results in the state that front part left. *)
Theorem search_available_domains_short_circuits
    (w : world) (self : DomainChecker) (base_name : string) (max_results : Z) (tr : trace) :
  let suggestions := generate_domain_suggestions base_name None in
  (exists out tr' k,
      search_available_domains w self base_name max_results tr = (Ok out, tr')
      /\ Forall (fun r => available r = Some true) out
      /\ sublist (map domain out) suggestions
      /\ checked tr' = checked tr ++ firstn k suggestions
      /\ (k < length suggestions -> (max_results <= Z.of_nat (length out))%Z)
      /\ (Z.of_nat (length out) <= Z.max max_results 0)%Z)
  /\ (forall pre post out tr',
      suggestions = pre ++ post ->
      search_loop w self pre max_results [] tr = (Ok out, tr') ->
      (max_results <= Z.of_nat (length out))%Z ->
      search_available_domains w self base_name max_results tr = (Ok out, tr')).
Proof.
  intros suggestions. unfold search_available_domains.
  change (generate_domain_suggestions base_name None) with suggestions.
  clearbody suggestions. split.
  - destruct (search_loop_run w self max_results suggestions [] tr)
      as (out & tr' & k & E & Hav & Hsub & Hck & Hstop & Hlen).
    cbn [app length Z.of_nat] in E, Hstop, Hlen.
    exists out, tr', k. repeat split; assumption.
  - intros pre post out tr' -> Hrun Hq. now apply search_loop_quota.
Qed.

Lemma search_available_domains_short_circuits_witness :
  search_available_domains world_all_free checker_without_key "x" 2 []
  = (Ok [ {| domain := "x.com"; available := Some true; status := Some "AVAILABLE";
             error := None; details := None; method := Some "whois_library" |};
          {| domain := "x.net"; available := Some true; status := Some "AVAILABLE";
             error := None; details := None; method := Some "whois_library" |} ],
     [Call "check_domain" "x.com"; Call "check_domain_whois" "x.com"; WhoisQuery "x.com";
      Sleep (4 # 5);
      Call "check_domain" "x.net"; Call "check_domain_whois" "x.net"; WhoisQuery "x.net";
      Sleep (4 # 5)]).
Proof.
  apply (proj2 (search_available_domains_short_circuits world_all_free checker_without_key
                  "x" 2 [])
           ["x.com"; "x.net"]
           ["x.org"; "x.io"; "x.co"; "x.app"; "x.dev"; "x.tech";
            "getx.com"; "getx.net"; "getx.org"; "getx.io";
            "xapp.com"; "xapp.net"; "xapp.org"; "xapp.io";
            "xhq.com"; "xhq.net"; "xhq.org"; "xhq.io"]).
  - reflexivity.
  - reflexivity.
  - simpl. lia.
Defined.

(** * Further properties of the validator *)

Lemma alnum_hyphen_not_dot c : Chars.alnum_hyphen c = true -> Chars.dot c = false.
Proof.
  unfold Chars.dot. destruct (Ascii.eqb_spec c ".") as [->|]; [|reflexivity].
  vm_compute. discriminate.
Qed.

Lemma alpha_is_alnum_hyphen c : Chars.alpha c = true -> Chars.alnum_hyphen c = true.
Proof.
  unfold Chars.alpha, Chars.alnum_hyphen, Chars.alnum. intros H.
  apply orb_true_iff in H as [-> | ->]; simpl; rewrite ?orb_true_r; reflexivity.
Qed.

Lemma forallb_impl_bool {A} (f g : A -> bool) l :
  (forall x, f x = true -> g x = true) -> forallb f l = true -> forallb g l = true.
Proof.
  intros Hfg. induction l as [|x l IH]; simpl; [reflexivity|].
  intros H. apply andb_true_iff in H as [Hx Hl]. now rewrite (Hfg x Hx), IH.
Qed.

Lemma filter_dot_none l :
  forallb Chars.alnum_hyphen l = true -> List.filter Chars.dot l = [].
Proof.
  induction l as [|c l IH]; simpl; [reflexivity|].
  intros H. apply andb_true_iff in H as [Hc Hl].
  now rewrite (alnum_hyphen_not_dot c Hc), IH.
Qed.

Lemma label_chars l : is_label l = true ->
  forallb Chars.alnum_hyphen l = true /\ 1 <= length l <= 63.
Proof.
  unfold is_label. intros H. repeat (apply andb_true_iff in H as [H ?]).
  apply Nat.leb_le in H. apply Nat.leb_le in H3. auto.
Qed.

Lemma tld_chars t : is_tld t = true ->
  forallb Chars.alpha t = true /\ 2 <= length t.
Proof.
  unfold is_tld. intros H. apply andb_true_iff in H as [H ?].
  apply Nat.leb_le in H. auto.
Qed.

(** X1: a name the validator accepts has exactly one dot, so no subdomain
    is ever accepted, is 4 to 253 characters long, and holds nothing but
    letters, digits, hyphens, the dot and a line feed. *)
Theorem is_valid_domain_one_dot (s : string) :
  is_valid_domain s = true ->
  dots s = 1
  /\ 4 <= String.length s <= 253
  /\ forallb name_char (String.list_ascii_of_string s) = true.
Proof.
  intros H. apply is_valid_domain_chars in H as (Hlen & l & t & nl & Hs & Hl & Ht & Hend).
  destruct (label_chars l Hl) as [Hlc Hll]. destruct (tld_chars t Ht) as [Htc Htl].
  assert (Hnl : List.filter Chars.dot nl = [] /\ forallb name_char nl = true).
  { apply at_end_cases in Hend as [-> | ->]; split; reflexivity. }
  destruct Hnl as [Hnd Hnc].
  split; [|split].
  - unfold dots. rewrite Hs, List.filter_app. cbn [List.filter].
    change (Chars.dot ".") with true. cbv iota. rewrite List.filter_app.
    rewrite (filter_dot_none l Hlc), Hnd.
    rewrite (filter_dot_none t (forallb_impl_bool _ _ t alpha_is_alnum_hyphen Htc)).
    reflexivity.
  - split; [|assumption]. rewrite <- chars_length, Hs.
    rewrite length_app. cbn [length]. rewrite length_app. lia.
  - rewrite Hs, forallb_app. cbn [forallb]. rewrite forallb_app, Hnc.
    assert (Hsub : forall c, Chars.alnum_hyphen c = true -> name_char c = true).
    { intros c Hc. unfold name_char. now rewrite Hc. }
    rewrite (forallb_impl_bool _ _ l Hsub Hlc).
    rewrite (forallb_impl_bool _ _ t
               (fun c Hc => Hsub c (alpha_is_alnum_hyphen c Hc)) Htc).
    reflexivity.
Qed.

Lemma is_valid_domain_one_dot_witness :
  dots "example-test-domain-12345.com" = 1
  /\ 4 <= String.length "example-test-domain-12345.com" <= 253
  /\ forallb name_char (String.list_ascii_of_string "example-test-domain-12345.com") = true.
Proof. apply (is_valid_domain_one_dot "example-test-domain-12345.com"). reflexivity. Defined.

(** X2: the validator accepts an accepted name again with one line feed
    added at its end, as long as the 253 characters are not exceeded: the
    [$] of the pattern also matches before a final line feed. *)
Theorem is_valid_domain_trailing_newline (s : string) :
  is_valid_domain s = true ->
  ends_with_newline s = false ->
  String.length s < 253 ->
  is_valid_domain (s +:+ String Chars.newline EmptyString) = true.
Proof.
  intros H Hnl Hlen.
  apply is_valid_domain_chars in H as (_ & l & t & nl & Hs & Hl & Ht & Hend).
  apply at_end_cases in Hend as [-> | ->].
  - apply is_valid_domain_chars. split.
    + rewrite <- chars_length, chars_append, length_app, chars_length. simpl. lia.
    + exists l, t, [Chars.newline]. rewrite chars_append, Hs, app_nil_r.
      repeat split; auto. now rewrite <- app_assoc.
  - assert (Hc : ends_with_newline s = true).
    { apply ends_with_newline_chars. exists (l ++ "."%char :: t).
      rewrite Hs, <- app_assoc. reflexivity. }
    congruence.
Qed.

Lemma is_valid_domain_trailing_newline_witness :
  is_valid_domain ("a.com" +:+ String Chars.newline EmptyString) = true.
Proof.
  apply (is_valid_domain_trailing_newline "a.com"); [reflexivity | reflexivity | simpl; lia].
Defined.

(** * Further properties of the strategies *)

Lemma sleeps_app a b : sleeps (a ++ b) = sleeps a ++ sleeps b.
Proof. apply List.filter_app. Qed.

Ltac detail_done :=
  eexists; split;
  [ rewrite <- ?app_assoc; simpl; reflexivity
  | split; reflexivity ].

Section StrategyDetails.

Variable w : world.
Variable self : DomainChecker.

Lemma check_domain_whois_detail d tr :
  exists r,
    check_domain_whois w d tr
    = (Ok r, tr ++ [Call "check_domain_whois" d; WhoisQuery d])
    /\ status_matches r /\ method r = Some "whois_library".
Proof.
  unfold check_domain_whois, whois_whois, try_except, bind, emit, ask, ret.
  destruct (whois_answer w (tr ++ [Call "check_domain_whois" d]) d) as [e|entry].
  - destruct (exn_kind e); try detail_done.
    destruct (str_contains "No match" (exn_str e)
              || str_contains "not found" (str_lower (exn_str e))); detail_done.
  - destruct (negb (truthy (domain_name entry))); detail_done.
Qed.

Lemma check_domain_dns_detail d tr :
  exists r,
    check_domain_dns w d tr
    = (Ok r, tr ++ [Call "check_domain_dns" d; DnsQuery d])
    /\ status_matches r /\ method r = Some "dns_resolution".
Proof.
  unfold check_domain_dns, gethostbyname, try_except, bind, emit, ask, ret.
  destruct (dns_answer w (tr ++ [Call "check_domain_dns" d]) d) as [e|addr].
  - destruct (exn_kind e); detail_done.
  - detail_done.
Qed.

Ltac rapid_quiet :=
  eexists _, _; split;
  [ rewrite <- ?app_assoc; simpl; reflexivity
  | split; [reflexivity | split; [reflexivity | left; reflexivity]] ].

Ltac rapid_sent :=
  eexists _, _; split;
  [ rewrite <- ?app_assoc; simpl; reflexivity
  | split; [first [reflexivity | unfold status_matches; simpl;
                                 match goal with |- context [if ?b then _ else _] =>
                                   destruct b; reflexivity end]
           | split; [reflexivity | right; eexists; split; [reflexivity|];
                                   repeat split; try reflexivity;
                                   try (simpl; auto; fail); try discriminate ]] ].

Lemma check_domain_rapidapi_detail d api tr :
  exists r ext,
    check_domain_rapidapi w self d api tr
    = (Ok r, tr ++ Call "check_domain_rapidapi" d :: ext)
    /\ status_matches r /\ method r = Some ("rapidapi_" +:+ api)
    /\ (ext = []
        \/ exists rq, ext = [HttpGet rq]
           /\ req_timeout rq = 10%Z
           /\ In ("X-RapidAPI-Key", rapidapi_key self) (req_headers rq)
           /\ opt_str_falsy (rapidapi_key self) = false
           /\ (api = "whoisapi" -> rq = whoisapi_request self d)).
Proof.
  unfold check_domain_rapidapi, bind at 1. unfold emit at 1.
  destruct (opt_str_falsy (rapidapi_key self)) eqn:Ekey; [unfold ret; rapid_quiet|].
  unfold try_except.
  assert (Hcfg : apis_get api (apis self) = None
                 \/ (api = "whoisapi"
                     /\ apis_get api (apis self)
                        = Some {| url := "https://whois-lookup4.p.rapidapi.com/domain";
                                  headers := [("X-RapidAPI-Key", rapidapi_key self);
                                              ("X-RapidAPI-Host",
                                               Some "whois-lookup4.p.rapidapi.com")] |})
                 \/ (String.eqb api "whoisapi" = false
                     /\ apis_get api (apis self)
                        = Some {| url := "https://domaindb.p.rapidapi.com";
                                  headers := [("X-RapidAPI-Key", rapidapi_key self);
                                              ("X-RapidAPI-Host",
                                               Some "domaindb.p.rapidapi.com")] |})).
  { unfold apis. cbn [apis_get].
    destruct (String.eqb_spec "whoisapi" api) as [<-|Hn1]; [right; left; auto|].
    destruct (String.eqb_spec "domaindb" api) as [<-|Hn2]; [right; right; auto | left; auto]. }
  destruct Hcfg as [-> | [[-> ->] | [Eapi ->]]]; [unfold ret; rapid_quiet | |].
  - change (String.eqb "whoisapi" "whoisapi") with true. cbv beta iota.
    unfold bind at 1. unfold session_get, ask. cbn [url headers].
    destruct (http_answer w _ _) as [e|resp];
      [destruct (exn_kind e); unfold ret; rapid_sent|].
    unfold raise_for_status, json, py_in, bind, raise, ret.
    destruct ((400 <=? status_code resp)%Z && (status_code resp <? 600)%Z);
      [simpl; rapid_sent|].
    destruct (json_body resp) as [e|data]; [destruct (exn_kind e); rapid_sent|].
    destruct data; simpl; try rapid_sent.
    + destruct (str_contains "registrar" s); simpl; [rapid_sent|].
      destruct (str_contains "creation_date" s); rapid_sent.
    + destruct (existsb _ l); simpl; [rapid_sent|].
      destruct (existsb _ l); rapid_sent.
    + destruct (dict_lookup "registrar" kvs); simpl; [rapid_sent|].
      destruct (dict_lookup "creation_date" kvs); rapid_sent.
  - rewrite Eapi. cbv beta iota.
    assert (Hne : api = "whoisapi" -> False).
    { intros ->. discriminate. }
    unfold bind at 1. unfold session_get, ask. cbn [url headers].
    destruct (http_answer w _ _) as [e|resp];
      [destruct (exn_kind e); unfold ret; rapid_sent; intros Hx; destruct (Hne Hx)|].
    unfold raise_for_status, json, py_get, bind, raise, ret.
    destruct ((400 <=? status_code resp)%Z && (status_code resp <? 600)%Z);
      [simpl; rapid_sent; intros Hx; destruct (Hne Hx)|].
    destruct (json_body resp) as [e|data];
      [destruct (exn_kind e); rapid_sent; intros Hx; destruct (Hne Hx)|].
    destruct data; simpl; rapid_sent; intros Hx; destruct (Hne Hx).
Qed.

End StrategyDetails.

(** * Further properties of the fallback chain *)

Section ChainDetails.

Variable w : world.
Variable self : DomainChecker.

Lemma answers_ext d m tr r tr1 :
  answers w self d m tr r tr1 ->
  exists ext,
    tr1 = tr ++ ext
    /\ Forall (chain_event self d) ext
    /\ invoked ext = [m]
    /\ length (network ext) <= 1
    /\ sleeps ext = []
    /\ status_matches r /\ method_of_chain r.
Proof.
  unfold answers, dispatch, method_of_chain.
  destruct (String.eqb_spec m "whois") as [->|_].
  { destruct (check_domain_whois_detail w d tr) as (r' & E & Hs & Hm).
    unfold bind, ret. rewrite E. intros [= <- <-].
    eexists. split; [reflexivity|].
    repeat split; auto;
      try solve [repeat constructor; simpl; auto; try discriminate]. }
  destruct (String.eqb_spec m "dns") as [->|_].
  { destruct (check_domain_dns_detail w d tr) as (r' & E & Hs & Hm).
    unfold bind, ret. rewrite E. intros [= <- <-].
    eexists. split; [reflexivity|].
    repeat split; auto;
      try solve [repeat constructor; simpl; auto; try discriminate]. }
  destruct (String.eqb_spec m "rapidapi") as [->|_]; [|discriminate].
  destruct (check_domain_rapidapi_detail w self d "whoisapi" tr)
    as (r' & ext & E & Hs & Hm & Hext).
  unfold bind, ret. rewrite E. intros [= <- <-].
  eexists. split; [reflexivity|].
  destruct Hext as [-> | (rq & -> & _ & _ & _ & Hrq)].
  - repeat split; auto;
      try solve [repeat constructor; simpl; auto; try discriminate].
  - rewrite (Hrq eq_refl). repeat split; auto;
      try solve [repeat constructor; simpl; auto; try discriminate].
Qed.

Lemma falls_through_ext d ms : forall last tr last' tr',
  falls_through w self d ms last tr last' tr' ->
  exists ext,
    tr' = tr ++ ext
    /\ Forall (chain_event self d) ext
    /\ invoked ext = List.filter recognised ms
    /\ length (network ext) <= length (invoked ext)
    /\ length (sleeps ext) = length (invoked ext).
Proof.
  intros last tr last' tr' H.
  induction H as [last tr | m ms last tr last' tr' Hm _ IH
                 | m ms last tr r tr1 last' tr' Ha Hd _ IH].
  - exists []. rewrite app_nil_r. repeat split; auto.
  - destruct IH as (ext & -> & Hev & Hi & Hn & Hs).
    exists ext. simpl. rewrite Hm. auto.
  - destruct IH as (ext & -> & Hev & Hi & Hn & Hs).
    destruct (answers_ext d m tr r tr1 Ha) as (ext1 & -> & Hev1 & Hi1 & Hn1 & Hs1 & _).
    destruct (answers_inv w self d m tr r _ Ha) as (Hm & _).
    exists (ext1 ++ Sleep (1 # 2) :: ext). split; [|split; [|split; [|split]]].
    + rewrite <- !app_assoc. reflexivity.
    + apply Forall_app. split; [assumption|]. constructor; [reflexivity | assumption].
    + rewrite invoked_app, Hi1. simpl. now rewrite Hm, Hi.
    + rewrite network_app, invoked_app, !length_app, Hi1. simpl.
      change (network (Sleep (1 # 2) :: ext)) with (network ext). lia.
    + rewrite sleeps_app, invoked_app, !length_app, Hs1, Hi1. simpl.
      change (sleeps (Sleep (1 # 2) :: ext)) with (Sleep (1 # 2) :: sleeps ext).
      simpl. lia.
Qed.

Lemma falls_through_keeps d (P : DomainResult -> Prop) ms : forall last tr last' tr',
  falls_through w self d ms last tr last' tr' ->
  (forall r tr0 tr1 m, answers w self d m tr0 r tr1 -> definitive r = false -> P r) ->
  (forall r, last = Some r -> P r) ->
  forall r, last' = Some r -> P r.
Proof.
  intros last tr last' tr' H HP.
  induction H as [last tr | m ms last tr last' tr' Hm _ IH
                 | m ms last tr r tr1 last' tr' Ha Hd _ IH]; auto.
  intros _. apply IH. intros r0 [= <-]. eapply HP; eauto.
Qed.

End ChainDetails.

(** X3: on a name the validator rejects, [check_domain] returns the result
    with [available] unknown, the error "Invalid domain format" and no
    method, whatever the list of methods, and does nothing else: no
    strategy is entered, nothing goes to the network and no pause is
    taken. *)
Theorem check_domain_invalid_is_local
    (w : world) (self : DomainChecker) (d : string)
    (methods : option (list string)) (tr : trace) :
  is_valid_domain d = false ->
  check_domain w self d methods tr
  = (Ok {| domain := d; available := None; status := None;
           error := Some "Invalid domain format"; details := None; method := None |},
     tr ++ [Call "check_domain" d])
  /\ invoked (tr ++ [Call "check_domain" d]) = invoked tr
  /\ network (tr ++ [Call "check_domain" d]) = network tr
  /\ sleeps (tr ++ [Call "check_domain" d]) = sleeps tr.
Proof.
  intros Hv. split; [|split; [|split]].
  - unfold check_domain, bind, emit. rewrite Hv. reflexivity.
  - apply invoked_check_call.
  - rewrite network_app. apply app_nil_r.
  - rewrite sleeps_app. apply app_nil_r.
Qed.

Lemma check_domain_invalid_is_local_witness :
  check_domain world_all_free checker_with_key "www.example.com" None []
  = (Ok {| domain := "www.example.com"; available := None; status := None;
           error := Some "Invalid domain format"; details := None; method := None |},
     [] ++ [Call "check_domain" "www.example.com"])
  /\ invoked ([] ++ [Call "check_domain" "www.example.com"]) = invoked []
  /\ network ([] ++ [Call "check_domain" "www.example.com"]) = network []
  /\ sleeps ([] ++ [Call "check_domain" "www.example.com"]) = sleeps [].
Proof.
  apply (check_domain_invalid_is_local world_all_free checker_with_key
           "www.example.com" None []).
  reflexivity.
Defined.

(** X4: in every result of a strategy and of [check_domain], [status] is
    "AVAILABLE" exactly when [available] is true, "REGISTERED" exactly when
    it is false and absent when it is unknown; a result of [check_domain]
    names the strategy it comes from, and has no method only when its error
    is "Invalid domain format" or "All methods failed". *)
Theorem results_status_and_method (w : world) (self : DomainChecker) (d : string) :
  (forall tr r tr', check_domain_whois w d tr = (Ok r, tr') ->
      status_matches r /\ method r = Some "whois_library")
  /\ (forall tr r tr', check_domain_dns w d tr = (Ok r, tr') ->
      status_matches r /\ method r = Some "dns_resolution")
  /\ (forall api tr r tr', check_domain_rapidapi w self d api tr = (Ok r, tr') ->
      status_matches r /\ method r = Some ("rapidapi_" +:+ api))
  /\ (forall methods tr r tr', check_domain w self d methods tr = (Ok r, tr') ->
      status_matches r
      /\ (method_of_chain r
          \/ (method r = None
              /\ (error r = Some "Invalid domain format"
                  \/ error r = Some "All methods failed")))).
Proof.
  split; [|split; [|split]].
  - intros tr r tr' E. destruct (check_domain_whois_detail w d tr) as (r' & E' & H).
    rewrite E' in E. now injection E as <- _.
  - intros tr r tr' E. destruct (check_domain_dns_detail w d tr) as (r' & E' & H).
    rewrite E' in E. now injection E as <- _.
  - intros api tr r tr' E.
    destruct (check_domain_rapidapi_detail w self d api tr) as (r' & ext & E' & Hs & Hm & _).
    rewrite E' in E. now injection E as <- _.
  - intros methods tr r tr' E.
    destruct (is_valid_domain d) eqn:Hv.
    + assert (Hms : exists ms, check_domain w self d methods tr
                               = check_domain w self d (Some ms) tr).
      { destruct methods as [ms|]; [now exists ms | now exists default_methods]. }
      destruct Hms as [ms Hms]. rewrite Hms, (check_domain_valid w self d ms tr Hv) in E.
      destruct (for_methods_run w self d ms None (tr ++ [Call "check_domain" d]))
        as [(pre & m & post & last1 & tr1 & r0 & tr2 & _ & _ & Ha & _ & Hrun)
           | (last' & tr0 & Hft & Hrun)]; rewrite Hrun in E.
      * injection E as <- _.
        destruct (answers_ext w self d m tr1 r0 tr2 Ha) as (_ & _ & _ & _ & _ & _ & Hs & Hm).
        auto.
      * destruct last' as [r0|].
        -- injection E as <- _.
           apply (falls_through_keeps w self d
                    (fun r => status_matches r /\ (method_of_chain r \/ _))
                    ms None _ (Some r0) tr0 Hft); auto; [|discriminate].
           intros r1 tra trb m Ha _.
           destruct (answers_ext w self d m tra r1 trb Ha) as (_ & _ & _ & _ & _ & _ & Hs & Hm).
           auto.
        -- injection E as <- _. split; [reflexivity|]. right. auto.
    + rewrite (check_domain_invalid w self d methods tr Hv) in E.
      injection E as <- _. split; [reflexivity|]. right. auto.
Qed.

Lemma results_status_and_method_witness :
  status_matches {| domain := "a.com"; available := Some true; status := Some "AVAILABLE";
                    error := None; details := None; method := Some "whois_library" |}
  /\ method {| domain := "a.com"; available := Some true; status := Some "AVAILABLE";
               error := None; details := None; method := Some "whois_library" |}
     = Some "whois_library".
Proof.
  apply (proj1 (results_status_and_method world_all_free checker_without_key "a.com")
           [] _ [Call "check_domain_whois" "a.com"; WhoisQuery "a.com"]).
  reflexivity.
Defined.

(** X5: one check of a name leaves in the history its own entry and, after
    it, only entries of strategies for that name, queries about that name,
    requests about it to the "whoisapi" provider and pauses of half a
    second.  It sends at most one request to the network for each strategy
    it enters, enters at most the known names of the list, and has taken a
    pause after every strategy except one that gave a definitive answer. *)
Theorem check_domain_footprint
    (w : world) (self : DomainChecker) (d : string)
    (methods : option (list string)) (tr : trace) :
  let ms := match methods with None => default_methods | Some l => l end in
  exists r ext,
    check_domain w self d methods tr = (Ok r, tr ++ Call "check_domain" d :: ext)
    /\ Forall (chain_event self d) ext
    /\ length (network ext) <= length (invoked ext)
    /\ length (invoked ext) <= length (List.filter recognised ms)
    /\ length (invoked ext)
       = length (sleeps ext) + (if definitive r then 1 else 0).
Proof.
  intros ms.
  destruct (is_valid_domain d) eqn:Hv.
  - assert (Hms : check_domain w self d methods tr = check_domain w self d (Some ms) tr).
    { now destruct methods. }
    rewrite Hms, (check_domain_valid w self d ms tr Hv). clearbody ms.
    destruct (for_methods_run w self d ms None (tr ++ [Call "check_domain" d]))
      as [(pre & m & post & last1 & tr1 & r0 & tr2 & -> & Hft & Ha & Hd & Hrun)
         | (last' & tr0 & Hft & Hrun)]; rewrite Hrun.
    + destruct (falls_through_ext w self d _ _ _ _ _ Hft) as (e1 & -> & Hev1 & Hi1 & Hn1 & Hs1).
      destruct (answers_ext w self d m _ r0 tr2 Ha) as (e2 & -> & Hev2 & Hi2 & Hn2 & Hs2 & _).
      destruct (answers_inv w self d m _ r0 _ Ha) as (Hm & _).
      exists r0, (e1 ++ e2). split; [|split; [|split; [|split]]].
      * rewrite <- !app_assoc. reflexivity.
      * apply Forall_app. auto.
      * rewrite network_app, invoked_app, !length_app, Hi2. simpl. lia.
      * rewrite invoked_app, Hi1, Hi2, List.filter_app. cbn [List.filter].
        rewrite Hm, !length_app. simpl. lia.
      * rewrite invoked_app, sleeps_app, !length_app, Hs2, Hi2, Hd. simpl. lia.
    + destruct (falls_through_ext w self d _ _ _ _ _ Hft) as (e1 & -> & Hev1 & Hi1 & Hn1 & Hs1).
      assert (Hnd : forall r0, last' = Some r0 -> definitive r0 = false).
      { apply (falls_through_keeps w self d (fun r => definitive r = false)
                 ms None _ last' _ Hft); auto. discriminate. }
      exists (match last' with Some r0 => r0 | None => all_failed_result d end), e1.
      split; [|split; [|split; [|split]]].
      * rewrite <- app_assoc. now destruct last'.
      * assumption.
      * assumption.
      * now rewrite Hi1.
      * assert (Hdef : definitive (match last' with
                                   | Some r0 => r0
                                   | None => all_failed_result d
                                   end) = false).
        { destruct last' as [r0|]; [now apply Hnd | reflexivity]. }
        rewrite Hdef. lia.
  - rewrite (check_domain_invalid w self d methods tr Hv).
    exists (invalid_result d), []. repeat split; simpl; auto; lia.
Qed.

(** * Further properties of the third-party strategy *)

Ltac rapidapi_sent Hkey Hans :=
  unfold check_domain_rapidapi; unfold bind at 1; unfold emit at 1;
  rewrite Hkey; unfold try_except; unfold apis; cbn [apis_get String.eqb Ascii.eqb Bool.eqb];
  cbv beta iota; unfold bind at 1; unfold session_get, ask; cbn [url headers];
  rewrite Hans; unfold raise_for_status, json, py_get, py_in, bind, raise, ret.

(** X6: when the credential is missing or is the empty string, and when it
    is set but the provider name is not one of the two the checker knows,
    [check_domain_rapidapi] returns a result with [available] unknown and
    an error that says which, and sends nothing to the network. *)
Theorem check_domain_rapidapi_unusable_setup
    (w : world) (self : DomainChecker) (d api : string) (tr : trace) :
  (opt_str_falsy (rapidapi_key self) = true ->
   check_domain_rapidapi w self d api tr
   = (Ok {| domain := d; available := None; status := None;
            error := Some "RapidAPI key not found in environment variables";
            details := None; method := Some ("rapidapi_" +:+ api) |},
      tr ++ [Call "check_domain_rapidapi" d]))
  /\ (opt_str_falsy (rapidapi_key self) = false ->
      api <> "whoisapi" -> api <> "domaindb" ->
      check_domain_rapidapi w self d api tr
      = (Ok {| domain := d; available := None; status := None;
               error := Some ("Unknown API: " +:+ api);
               details := None; method := Some ("rapidapi_" +:+ api) |},
         tr ++ [Call "check_domain_rapidapi" d]))
  /\ network (tr ++ [Call "check_domain_rapidapi" d]) = network tr.
Proof.
  split; [|split].
  - intros Hkey. unfold check_domain_rapidapi, bind, emit, ret. now rewrite Hkey.
  - intros Hkey H1 H2. unfold check_domain_rapidapi, bind, emit, ret, try_except.
    rewrite Hkey. unfold apis. cbn [apis_get].
    destruct (String.eqb_spec "whoisapi" api) as [E|_]; [now destruct H1|].
    destruct (String.eqb_spec "domaindb" api) as [E|_]; [now destruct H2|].
    reflexivity.
  - rewrite network_app. apply app_nil_r.
Qed.

Lemma check_domain_rapidapi_unusable_setup_witness :
  check_domain_rapidapi world_empty_json {| rapidapi_key := Some "" |} "a.com" "whoisapi" []
  = (Ok {| domain := "a.com"; available := None; status := None;
           error := Some "RapidAPI key not found in environment variables";
           details := None; method := Some ("rapidapi_" +:+ "whoisapi") |},
     [] ++ [Call "check_domain_rapidapi" "a.com"]).
Proof.
  apply (proj1 (check_domain_rapidapi_unusable_setup world_empty_json
                  {| rapidapi_key := Some "" |} "a.com" "whoisapi" [])).
  reflexivity.
Defined.

(** X7: with a credential set, when a known provider answers with a status
    from 400 to 599, [check_domain_rapidapi] returns [available] unknown
    with the error "API request failed: " followed by the text of the HTTP
    error, whatever the body of the answer holds. *)
Theorem check_domain_rapidapi_http_error
    (w : world) (self : DomainChecker) (d api : string) (tr : trace) (resp : response) :
  opt_str_falsy (rapidapi_key self) = false ->
  api = "whoisapi" \/ api = "domaindb" ->
  (forall rq, http_answer w (tr ++ [Call "check_domain_rapidapi" d]) rq = inr resp) ->
  (400 <= status_code resp < 600)%Z ->
  exists rq,
    check_domain_rapidapi w self d api tr
    = (Ok {| domain := d; available := None; status := None;
             error := Some ("API request failed: " +:+ http_error resp);
             details := None; method := Some ("rapidapi_" +:+ api) |},
       tr ++ [Call "check_domain_rapidapi" d; HttpGet rq]).
Proof.
  intros Hkey Hapi Hans Hst.
  assert (Hs : ((400 <=? status_code resp)%Z && (status_code resp <? 600)%Z) = true).
  { apply andb_true_iff. split; [apply Z.leb_le | apply Z.ltb_lt]; lia. }
  destruct Hapi as [-> | ->]; eexists.
  - rapidapi_sent Hkey Hans. rewrite Hs. cbn. rewrite <- app_assoc. reflexivity.
  - rapidapi_sent Hkey Hans. rewrite Hs. cbn. rewrite <- app_assoc. reflexivity.
Qed.

Lemma check_domain_rapidapi_http_error_witness :
  exists rq,
    check_domain_rapidapi
      (constant_world (inl refused) (inl refused)
         (inr {| status_code := 429; http_error := "429 Client Error: Too Many Requests";
                 json_body := inr (PyDict [("registered", PyBool false)]) |}))
      checker_with_key "a.com" "domaindb" []
    = (Ok {| domain := "a.com"; available := None; status := None;
             error := Some ("API request failed: " +:+ "429 Client Error: Too Many Requests");
             details := None; method := Some ("rapidapi_" +:+ "domaindb") |},
       [] ++ [Call "check_domain_rapidapi" "a.com"; HttpGet rq]).
Proof.
  apply (check_domain_rapidapi_http_error
           (constant_world (inl refused) (inl refused)
              (inr {| status_code := 429; http_error := "429 Client Error: Too Many Requests";
                      json_body := inr (PyDict [("registered", PyBool false)]) |}))
           checker_with_key "a.com" "domaindb" []
           {| status_code := 429; http_error := "429 Client Error: Too Many Requests";
              json_body := inr (PyDict [("registered", PyBool false)]) |}).
  - reflexivity.
  - right. reflexivity.
  - intros rq. reflexivity.
  - simpl. lia.
Defined.

(** X8: with a credential set, when the "domaindb" provider answers with a
    status outside 400 to 599 and a JSON object, [available] is the
    negation of the truth value of its "registered" field, taken as true
    when the field is missing: a field that is false, null, zero or empty
    makes the name available.  When the body is JSON but not an object, the
    result is [available] unknown with an error. *)
Theorem check_domain_rapidapi_domaindb_verdict
    (w : world) (self : DomainChecker) (d : string) (tr : trace)
    (resp : response) (data : pyval) :
  opt_str_falsy (rapidapi_key self) = false ->
  (forall rq, http_answer w (tr ++ [Call "check_domain_rapidapi" d]) rq = inr resp) ->
  (status_code resp < 400 \/ 600 <= status_code resp)%Z ->
  json_body resp = inr data ->
  exists r tr',
    check_domain_rapidapi w self d "domaindb" tr = (Ok r, tr')
    /\ match data with
       | PyDict kvs =>
           let registered := match dict_lookup "registered" kvs with
                             | Some v => v
                             | None => PyBool true
                             end in
           available r = Some (negb (truthy registered))
           /\ error r = None /\ details r = Some data
       | _ =>
           available r = None
           /\ error r = Some ("API check failed: '" +:+ type_name data
                              +:+ "' object has no attribute 'get'")
           /\ details r = None
       end.
Proof.
  intros Hkey Hans Hst Hjson.
  assert (Hs : ((400 <=? status_code resp)%Z && (status_code resp <? 600)%Z) = false).
  { apply andb_false_iff. destruct Hst; [left; apply Z.leb_gt | right; apply Z.ltb_ge]; lia. }
  rapidapi_sent Hkey Hans. rewrite Hs, Hjson.
  destruct data; cbn; eexists _, _; (split; [reflexivity|]); repeat split; reflexivity.
Qed.

Lemma check_domain_rapidapi_domaindb_verdict_witness :
  exists r tr',
    check_domain_rapidapi
      (constant_world (inl refused) (inl refused)
         (inr {| status_code := 200; http_error := "";
                 json_body := inr (PyDict [("registered", PyNone)]) |}))
      checker_with_key "a.com" "domaindb" [] = (Ok r, tr')
    /\ available r = Some (negb (truthy PyNone))
    /\ error r = None /\ details r = Some (PyDict [("registered", PyNone)]).
Proof.
  apply (check_domain_rapidapi_domaindb_verdict
           (constant_world (inl refused) (inl refused)
              (inr {| status_code := 200; http_error := "";
                      json_body := inr (PyDict [("registered", PyNone)]) |}))
           checker_with_key "a.com" []
           {| status_code := 200; http_error := "";
              json_body := inr (PyDict [("registered", PyNone)]) |}
           (PyDict [("registered", PyNone)])).
  - reflexivity.
  - intros rq. reflexivity.
  - left. simpl. lia.
  - reflexivity.
Defined.

(** X9: with a credential set, when the "whoisapi" provider answers with a
    status outside 400 to 599 and a JSON object, the name is reported
    registered exactly when the object has a "registrar" or a
    "creation_date" key, whatever their values, and available otherwise:
    an empty object means available.  When the body is null, a boolean or a
    number, the result is [available] unknown with an error. *)
Theorem check_domain_rapidapi_whoisapi_verdict
    (w : world) (self : DomainChecker) (d : string) (tr : trace)
    (resp : response) (data : pyval) :
  opt_str_falsy (rapidapi_key self) = false ->
  (forall rq, http_answer w (tr ++ [Call "check_domain_rapidapi" d]) rq = inr resp) ->
  (status_code resp < 400 \/ 600 <= status_code resp)%Z ->
  json_body resp = inr data ->
  exists r,
    check_domain_rapidapi w self d "whoisapi" tr
    = (Ok r, tr ++ [Call "check_domain_rapidapi" d; HttpGet (whoisapi_request self d)])
    /\ match data with
       | PyDict kvs =>
           let has key := match dict_lookup key kvs with
                          | Some _ => true
                          | None => false
                          end in
           available r = Some (negb (has "registrar" || has "creation_date"))
           /\ error r = None /\ details r = Some data
       | PyNone | PyBool _ | PyInt _ | PyFloat _ =>
           available r = None
           /\ error r = Some ("API check failed: argument of type '" +:+ type_name data
                              +:+ "' is not iterable")
           /\ details r = None
       | PyStr _ | PyList _ => error r = None
       end.
Proof.
  intros Hkey Hans Hst Hjson.
  assert (Hs : ((400 <=? status_code resp)%Z && (status_code resp <? 600)%Z) = false).
  { apply andb_false_iff. destruct Hst; [left; apply Z.leb_gt | right; apply Z.ltb_ge]; lia. }
  rapidapi_sent Hkey Hans. rewrite Hs, Hjson. rewrite <- app_assoc.
  destruct data; cbn [app].
  1-4: eexists; split; [reflexivity | repeat split; reflexivity].
  - cbn. destruct (str_contains "registrar" s); cbn;
      [|destruct (str_contains "creation_date" s)];
      eexists; split; reflexivity.
  - cbn. destruct (existsb _ l); cbn; [|destruct (existsb _ l)];
      eexists; split; reflexivity.
  - cbn. destruct (dict_lookup "registrar" kvs); cbn;
      [|destruct (dict_lookup "creation_date" kvs)];
      eexists; split; [reflexivity | repeat split; reflexivity
                      | reflexivity | repeat split; reflexivity
                      | reflexivity | repeat split; reflexivity].
Qed.

Lemma check_domain_rapidapi_whoisapi_verdict_witness :
  exists r,
    check_domain_rapidapi world_empty_json checker_with_key "a.com" "whoisapi" []
    = (Ok r, [] ++ [Call "check_domain_rapidapi" "a.com";
                    HttpGet (whoisapi_request checker_with_key "a.com")])
    /\ available r = Some (negb (false || false))
    /\ error r = None /\ details r = Some (PyDict []).
Proof.
  apply (check_domain_rapidapi_whoisapi_verdict world_empty_json checker_with_key
           "a.com" []
           {| status_code := 200; http_error := ""; json_body := inr (PyDict []) |}
           (PyDict [])).
  - reflexivity.
  - intros rq. reflexivity.
  - left. simpl. lia.
  - reflexivity.
Defined.

(** * Further properties of the registration-record and resolution strategies *)

Lemma prefix_append v b : String.prefix v (v +:+ b) = true.
Proof.
  induction v as [|c v IH]; simpl; [now destruct b|].
  destruct (ascii_dec c c) as [_|Hn]; [assumption | now destruct Hn].
Qed.

Lemma str_contains_prefix v s : String.prefix v s = true -> str_contains v s = true.
Proof. intros H. destruct s; cbn [str_contains]; rewrite H; reflexivity. Qed.

Lemma str_contains_middle v a b : str_contains v (a +:+ v +:+ b) = true.
Proof.
  induction a as [|c a IH].
  - change (str_contains v (v +:+ b) = true).
    apply str_contains_prefix, prefix_append.
  - change (str_contains v (String c (a +:+ v +:+ b)) = true).
    cbn [str_contains]. rewrite IH. apply orb_true_r.
Qed.

Lemma str_lower_append a b : str_lower (a +:+ b) = str_lower a +:+ str_lower b.
Proof.
  induction a as [|c a IH]; [reflexivity|].
  change (String (lower_char c) (str_lower (a +:+ b))
          = String (lower_char c) (str_lower a +:+ str_lower b)).
  now rewrite IH.
Qed.

(** X10: when the WHOIS query fails, [check_domain_whois] reads the failure
    as "available" only if the exception is a [PywhoisError] whose text
    holds "No match", in this very spelling, or "not found" in any mix of
    upper and lower case; a [PywhoisError] with neither gives [available]
    unknown with the error "WHOIS error: ..."; any other exception gives
    unknown with "WHOIS check failed: ...", whatever its text.  One query
    is sent, and none again. *)
Theorem check_domain_whois_failure_reading
    (w : world) (d : string) (tr : trace) (e : exn) :
  whois_answer w (tr ++ [Call "check_domain_whois" d]) d = inl e ->
  exists r,
    check_domain_whois w d tr
    = (Ok r, tr ++ [Call "check_domain_whois" d; WhoisQuery d])
    /\ (exn_kind e = PywhoisError ->
        forall a v b, exn_str e = a +:+ v +:+ b ->
                      v = "No match" \/ str_lower v = "not found" ->
                      available r = Some true /\ error r = None)
    /\ (exn_kind e = PywhoisError ->
        str_contains "No match" (exn_str e) = false ->
        str_contains "not found" (str_lower (exn_str e)) = false ->
        available r = None /\ error r = Some ("WHOIS error: " +:+ exn_str e))
    /\ (exn_kind e <> PywhoisError ->
        available r = None /\ error r = Some ("WHOIS check failed: " +:+ exn_str e)).
Proof.
  intros Hans.
  unfold check_domain_whois, whois_whois, try_except, bind, emit, ask, ret.
  rewrite Hans, <- app_assoc. cbn [app].
  destruct (str_contains "No match" (exn_str e)
            || str_contains "not found" (str_lower (exn_str e))) eqn:Emark.
  - destruct (exn_kind e) eqn:Ek; eexists; (split; [reflexivity|]);
      repeat split; try reflexivity; try congruence;
      try (intros; exfalso; apply orb_true_iff in Emark as [Hm | Hm]; congruence).
  - assert (Hno : forall a v b, exn_str e = a +:+ v +:+ b ->
                                v = "No match" \/ str_lower v = "not found" -> False).
    { intros a v b Hs Hv. apply orb_false_iff in Emark as [H1 H2].
      destruct Hv as [-> | Hv].
      - rewrite Hs, str_contains_middle in H1. discriminate.
      - rewrite Hs, !str_lower_append, Hv, str_contains_middle in H2. discriminate. }
    destruct (exn_kind e) eqn:Ek; eexists; (split; [reflexivity|]);
      repeat split; try reflexivity; try congruence;
      try (intros; exfalso; eapply Hno; eassumption).
Qed.

Lemma check_domain_whois_failure_reading_witness :
  exists r,
    check_domain_whois
      (constant_world (inl (Exn PywhoisError "Domain NOT FOUND.")) (inl refused) (inl refused))
      "a.com" []
    = (Ok r, [] ++ [Call "check_domain_whois" "a.com"; WhoisQuery "a.com"])
    /\ available r = Some true /\ error r = None.
Proof.
  destruct (check_domain_whois_failure_reading
              (constant_world (inl (Exn PywhoisError "Domain NOT FOUND.")) (inl refused)
                 (inl refused))
              "a.com" [] (Exn PywhoisError "Domain NOT FOUND.") eq_refl)
    as (r & E & Hmark & _).
  exists r. split; [exact E|].
  apply (Hmark eq_refl "Domain " "NOT FOUND" "."); [reflexivity | right; reflexivity].
Defined.

(** X11: a call of a strategy never raises and never asks twice:
    [check_domain_whois] sends exactly one WHOIS query for its domain,
    [check_domain_dns] exactly one name resolution for it, and
    [check_domain_rapidapi] at most one HTTP request, which carries the
    configured credential and a timeout of 10. *)
Theorem strategies_ask_once (w : world) (self : DomainChecker) (d : string) (tr : trace) :
  (exists r, check_domain_whois w d tr
             = (Ok r, tr ++ [Call "check_domain_whois" d; WhoisQuery d]))
  /\ (exists r, check_domain_dns w d tr
                = (Ok r, tr ++ [Call "check_domain_dns" d; DnsQuery d]))
  /\ (forall api, exists r ext,
        check_domain_rapidapi w self d api tr
        = (Ok r, tr ++ Call "check_domain_rapidapi" d :: ext)
        /\ (ext = []
            \/ exists rq, ext = [HttpGet rq]
               /\ req_timeout rq = 10%Z
               /\ In ("X-RapidAPI-Key", rapidapi_key self) (req_headers rq)
               /\ opt_str_falsy (rapidapi_key self) = false)).
Proof.
  split; [|split].
  - destruct (check_domain_whois_detail w d tr) as (r & E & _). eauto.
  - destruct (check_domain_dns_detail w d tr) as (r & E & _). eauto.
  - intros api.
    destruct (check_domain_rapidapi_detail w self d api tr) as (r & ext & E & _ & _ & Hext).
    exists r, ext. split; [exact E|].
    destruct Hext as [-> | (rq & -> & Ht & Hk & Hkey & _)]; [now left|].
    right. exists rq. auto.
Qed.

(** * Further properties of the suggestions *)

Lemma generate_domain_suggestions_unfold (base_name : string) (tlds : option (list string)) :
  generate_domain_suggestions base_name tlds
  = let requested := match tlds with None => default_tlds | Some ts => ts end in
    map (fun tld => base_name +:+ "." +:+ tld) requested
    ++ map (fun tld => ("get" +:+ base_name) +:+ "." +:+ tld) (firstn 4 requested)
    ++ map (fun tld => (base_name +:+ "app") +:+ "." +:+ tld) (firstn 4 requested)
    ++ map (fun tld => (base_name +:+ "hq") +:+ "." +:+ tld) (firstn 4 requested).
Proof.
  unfold generate_domain_suggestions.
  cbn [firstn fold_left]. rewrite !fold_left_snoc. cbn [app].
  rewrite <- !app_assoc. reflexivity.
Qed.

(** X12: the suggestions number the requested TLDs plus three times the
    first four of them, so at most twelve more than the TLDs and none for
    an empty list; and every suggestion is the base name, "get" before it,
    or "app" or "hq" after it, joined by a dot to a requested TLD: the
    variations with "pro", "my" and "online" that the code lists are never
    produced. *)
Theorem generate_domain_suggestions_bounded (base_name : string) (tlds : option (list string)) :
  let requested := match tlds with None => default_tlds | Some ts => ts end in
  length (generate_domain_suggestions base_name tlds)
  = length requested + 3 * Nat.min 4 (length requested)
  /\ length (generate_domain_suggestions base_name tlds) <= length requested + 12
  /\ (requested = [] -> generate_domain_suggestions base_name tlds = [])
  /\ (forall s, In s (generate_domain_suggestions base_name tlds) ->
        exists name tld,
          s = name +:+ "." +:+ tld /\ In tld requested
          /\ (name = base_name \/ name = "get" +:+ base_name
              \/ name = base_name +:+ "app" \/ name = base_name +:+ "hq")).
Proof.
  intros requested. rewrite generate_domain_suggestions_unfold. fold requested.
  clearbody requested. cbv zeta.
  assert (Hlen : length (map (fun tld => base_name +:+ "." +:+ tld) requested
                         ++ map (fun tld => ("get" +:+ base_name) +:+ "." +:+ tld)
                              (firstn 4 requested)
                         ++ map (fun tld => (base_name +:+ "app") +:+ "." +:+ tld)
                              (firstn 4 requested)
                         ++ map (fun tld => (base_name +:+ "hq") +:+ "." +:+ tld)
                              (firstn 4 requested))
                 = length requested + 3 * Nat.min 4 (length requested)).
  { rewrite !length_app, !length_map, length_firstn. lia. }
  split; [exact Hlen|]. split; [rewrite Hlen; lia|]. split.
  - intros ->. reflexivity.
  - intros s Hs.
    assert (Hfirst : forall t, In t (firstn 4 requested) -> In t requested).
    { intros t Ht. rewrite <- (firstn_skipn 4 requested). apply in_or_app. now left. }
    repeat (apply in_app_or in Hs as [Hs | Hs]);
      apply in_map_iff in Hs as (tld & <- & Ht); eexists _, tld;
      (split; [reflexivity|]); split; auto 6.
Qed.

(** ** Suggestions are names the validator accepts *)

Lemma starts_with_hyphen_app l x :
  l <> [] -> starts_with_hyphen (l ++ x) = starts_with_hyphen l.
Proof. destruct l; [congruence | reflexivity]. Qed.

Lemma is_label_intro l :
  1 <= length l <= 63 -> forallb Chars.alnum_hyphen l = true ->
  starts_with_hyphen l = false -> starts_with_hyphen (rev l) = false ->
  is_label l = true.
Proof.
  intros [H1 H2] Hc Hf Hl. unfold is_label.
  apply Nat.leb_le in H1. apply Nat.leb_le in H2.
  now rewrite H1, H2, Hc, Hf, Hl.
Qed.

Lemma is_label_elim l :
  is_label l = true ->
  1 <= length l <= 63 /\ forallb Chars.alnum_hyphen l = true
  /\ starts_with_hyphen l = false /\ starts_with_hyphen (rev l) = false.
Proof.
  unfold is_label. intros H. repeat (apply andb_true_iff in H as [H ?]).
  apply Nat.leb_le in H. apply Nat.leb_le in H3.
  apply negb_true_iff in H0, H1. auto.
Qed.

Lemma rev_not_nil {A} (l : list A) : l <> [] -> rev l <> [].
Proof.
  intros Hl Hr. apply Hl. apply (f_equal (@rev A)) in Hr.
  now rewrite rev_involutive in Hr.
Qed.

(** A label stays a label with letters put before it or after it, within
    the 63 characters. *)
Lemma is_label_extend x l y :
  is_label l = true ->
  forallb Chars.alnum x = true -> forallb Chars.alnum y = true ->
  length x + length l + length y <= 63 ->
  is_label (x ++ l ++ y) = true.
Proof.
  intros Hl Hx Hy Hlen.
  destruct (is_label_elim l Hl) as ([Hl1 _] & Hlc & Hlf & Hll).
  assert (Hne : l <> []) by (destruct l; [simpl in Hl1; lia | discriminate]).
  apply is_label_intro.
  - rewrite !length_app. lia.
  - rewrite !forallb_app, Hlc.
    rewrite (forallb_impl_bool _ _ x alnum_is_alnum_hyphen Hx).
    rewrite (forallb_impl_bool _ _ y alnum_is_alnum_hyphen Hy). reflexivity.
  - destruct x as [|c x].
    + simpl. now rewrite starts_with_hyphen_app.
    + simpl in Hx. apply andb_true_iff in Hx as [Hc _].
      simpl. now apply alnum_not_hyphen.
  - rewrite !rev_app_distr. destruct (rev y) as [|c ry] eqn:Ey.
    + simpl. rewrite starts_with_hyphen_app; [assumption | now apply rev_not_nil].
    + assert (Hc : Chars.alnum c = true).
      { assert (Hin : In c y) by (apply in_rev; rewrite Ey; now left).
        rewrite forallb_forall in Hy. now apply Hy. }
      simpl. now apply alnum_not_hyphen.
Qed.

Lemma is_valid_domain_intro (l t : string) :
  is_label (String.list_ascii_of_string l) = true ->
  is_tld (String.list_ascii_of_string t) = true ->
  String.length l + String.length t + 1 <= 253 ->
  is_valid_domain (l +:+ "." +:+ t) = true.
Proof.
  intros Hl Ht Hlen. apply is_valid_domain_chars. split.
  - rewrite <- chars_length, !chars_append, !length_app, !chars_length. simpl. lia.
  - exists (String.list_ascii_of_string l), (String.list_ascii_of_string t), [].
    rewrite !chars_append, app_nil_r. repeat split; auto.
Qed.

(** X13: when the base name is a label of at most 60 characters and every
    requested TLD is at least two letters and short enough for the 253
    characters, every suggestion is a name the validator accepts, so a
    search spends no check on a malformed name. *)
Theorem generate_domain_suggestions_valid (base_name : string) (tlds : option (list string)) :
  let requested := match tlds with None => default_tlds | Some ts => ts end in
  is_label (String.list_ascii_of_string base_name) = true ->
  String.length base_name <= 60 ->
  (forall tld, In tld requested ->
     is_tld (String.list_ascii_of_string tld) = true
     /\ String.length base_name + String.length tld + 4 <= 253) ->
  forall s, In s (generate_domain_suggestions base_name tlds) -> is_valid_domain s = true.
Proof.
  intros requested Hbase Hlen Htlds s Hs.
  rewrite generate_domain_suggestions_unfold in Hs. fold requested in Hs.
  clearbody requested. cbv zeta in Hs.
  assert (Hfirst : forall t, In t (firstn 4 requested) -> In t requested).
  { intros t Ht. rewrite <- (firstn_skipn 4 requested). apply in_or_app. now left. }
  assert (Hext : forall name : string,
             is_label (String.list_ascii_of_string name) = true ->
             String.length name <= String.length base_name + 3 ->
             forall tld, In tld requested ->
               is_valid_domain (name +:+ "." +:+ tld) = true).
  { intros name Hn Hnl tld Ht. destruct (Htlds tld Ht) as [Htld Htot].
    apply is_valid_domain_intro; auto. lia. }
  assert (Hpre : forall x : string,
             forallb Chars.alnum (String.list_ascii_of_string x) = true ->
             String.length x <= 3 ->
             is_label (String.list_ascii_of_string (x +:+ base_name)) = true).
  { intros x Hx Hxl. rewrite chars_append.
    rewrite <- (app_nil_r (String.list_ascii_of_string base_name)).
    apply is_label_extend; auto. rewrite !chars_length. simpl. lia. }
  assert (Hpost : forall y : string,
             forallb Chars.alnum (String.list_ascii_of_string y) = true ->
             String.length y <= 3 ->
             is_label (String.list_ascii_of_string (base_name +:+ y)) = true).
  { intros y Hy Hyl. rewrite chars_append.
    apply (is_label_extend [] _ (String.list_ascii_of_string y)); auto.
    rewrite !chars_length. simpl. lia. }
  assert (Happ : forall a b, String.length (a +:+ b) = String.length a + String.length b).
  { intros a b. now rewrite <- !chars_length, chars_append, length_app. }
  repeat (apply in_app_or in Hs as [Hs | Hs]);
    apply in_map_iff in Hs as (tld & <- & Ht).
  - apply Hext; [assumption | lia | assumption].
  - apply Hext; [apply Hpre; [reflexivity | simpl; lia] | rewrite Happ; simpl; lia | auto].
  - apply Hext; [apply Hpost; [reflexivity | simpl; lia] | rewrite Happ; simpl; lia | auto].
  - apply Hext; [apply Hpost; [reflexivity | simpl; lia] | rewrite Happ; simpl; lia | auto].
Qed.

Lemma generate_domain_suggestions_valid_witness :
  is_valid_domain "techstartupapp.net" = true.
Proof.
  apply (generate_domain_suggestions_valid "techstartup" None).
  - reflexivity.
  - simpl. lia.
  - intros tld Ht. simpl in Ht.
    repeat (destruct Ht as [<- | Ht]; [split; [reflexivity | simpl; lia]|]).
    destruct Ht.
  - vm_compute. do 13 right. left. reflexivity.
Defined.

(** * Further properties of the search and of the batch *)

(** X14: a search checks at most the twenty suggestions of its base name,
    and with [max_results] zero or negative it returns the empty list
    without checking anything, sending anything or pausing. *)
Theorem search_available_domains_bounded
    (w : world) (self : DomainChecker) (base_name : string) (max_results : Z) (tr : trace) :
  (exists out tr',
      search_available_domains w self base_name max_results tr = (Ok out, tr')
      /\ length (checked tr') <= length (checked tr) + 20)
  /\ ((max_results <= 0)%Z ->
      search_available_domains w self base_name max_results tr = (Ok [], tr)).
Proof.
  unfold search_available_domains. split.
  - destruct (search_loop_run w self max_results
                (generate_domain_suggestions base_name None) [] tr)
      as (out & tr' & k & E & _ & _ & Hck & _).
    exists out, tr'. split; [exact E|].
    rewrite Hck, length_app, length_firstn.
    assert (Hn : length (generate_domain_suggestions base_name None) = 20).
    { rewrite generate_domain_suggestions_unfold. cbv zeta.
      rewrite !length_app, !length_map. reflexivity. }
    lia.
  - intros Hmax.
    apply (search_loop_quota w self max_results []
             (generate_domain_suggestions base_name None) [] tr [] tr);
      [reflexivity | simpl; lia].
Qed.

Lemma search_available_domains_bounded_witness :
  search_available_domains world_all_free checker_with_key "techstartup" 0 [] = (Ok [], []).
Proof.
  apply (proj2 (search_available_domains_bounded world_all_free checker_with_key
                  "techstartup" 0 [])).
  lia.
Defined.

Lemma check_multiple_loop_acc w self delay ds : forall acc tr,
  check_multiple_loop w self ds delay acc tr
  = match check_multiple_loop w self ds delay [] tr with
    | (Ok rs, tr') => (Ok (acc ++ rs), tr')
    | (Raised e, tr') => (Raised e, tr')
    end.
Proof.
  induction ds as [|d ds IH]; intros acc tr.
  - simpl. unfold ret. now rewrite app_nil_r.
  - simpl. unfold bind at 1 3.
    destruct (check_domain w self d None tr) as [[r|e] tr1]; [|reflexivity].
    unfold bind.
    destruct ((if Qlt_le_dec 0 delay then sleep delay else ret tt) tr1) as [[u|e] tr2];
      [|reflexivity].
    rewrite (IH (acc ++ [r]) tr2), (IH [r] tr2).
    destruct (check_multiple_loop w self ds delay [] tr2) as [[rs|e] tr3]; [|reflexivity].
    now rewrite <- app_assoc.
Qed.

(** X15: a batch over two lists of domains one after the other is the
    batch over the first list followed, from the state it left, by the
    batch over the second, with the results in one list; the batch over no
    domain returns no result and does nothing; the batch over one domain is
    one check, followed by a pause of [delay] only when [delay] is
    positive. *)
Theorem check_multiple_domains_append
    (w : world) (self : DomainChecker) (delay : Q) :
  (forall ds1 ds2 tr rs1 tr1 rs2 tr2,
      check_multiple_domains w self ds1 delay tr = (Ok rs1, tr1) ->
      check_multiple_domains w self ds2 delay tr1 = (Ok rs2, tr2) ->
      check_multiple_domains w self (ds1 ++ ds2) delay tr = (Ok (rs1 ++ rs2), tr2))
  /\ (forall tr, check_multiple_domains w self [] delay tr = (Ok [], tr))
  /\ (forall d tr r tr1,
      check_domain w self d None tr = (Ok r, tr1) ->
      (Qlt 0 delay ->
       check_multiple_domains w self [d] delay tr = (Ok [r], tr1 ++ [Sleep delay]))
      /\ (Qle delay 0 ->
          check_multiple_domains w self [d] delay tr = (Ok [r], tr1))).
Proof.
  unfold check_multiple_domains. split; [|split].
  - induction ds1 as [|d ds1 IH]; intros ds2 tr rs1 tr1 rs2 tr2 H1 H2.
    + simpl in H1. injection H1 as <- <-. exact H2.
    + simpl in *. unfold bind at 1. unfold bind at 1 in H1.
      destruct (check_domain w self d None tr) as [[r|e] tr0]; [|discriminate].
      unfold bind in *.
      destruct ((if Qlt_le_dec 0 delay then sleep delay else ret tt) tr0) as [[u|e] tr0'];
        [|discriminate].
      rewrite check_multiple_loop_acc in H1. rewrite check_multiple_loop_acc.
      destruct (check_multiple_loop w self ds1 delay [] tr0') as [[rs|e] tr3] eqn:E1;
        [|discriminate].
      injection H1 as Hrs Htr. rewrite <- Hrs. rewrite <- Htr in H2.
      rewrite (IH ds2 tr0' rs tr3 rs2 tr2 E1 H2). reflexivity.
  - reflexivity.
  - intros d tr r tr1 E. simpl. unfold bind. rewrite E. split; intros Hd.
    + destruct (Qlt_le_dec 0 delay) as [_|Hle]; [reflexivity|].
      exfalso. apply (Qlt_irrefl 0). eapply Qlt_le_trans; eassumption.
    + destruct (Qlt_le_dec 0 delay) as [Hlt|_]; [|reflexivity].
      exfalso. apply (Qlt_irrefl 0). eapply Qlt_le_trans; eassumption.
Qed.

Lemma check_multiple_domains_append_witness :
  check_multiple_domains world_all_free checker_without_key (["a.com"] ++ ["b.io"]) 1 []
  = (Ok ([ {| domain := "a.com"; available := Some true; status := Some "AVAILABLE";
              error := None; details := None; method := Some "whois_library" |} ]
         ++ [ {| domain := "b.io"; available := Some true; status := Some "AVAILABLE";
                 error := None; details := None; method := Some "whois_library" |} ]),
     [Call "check_domain" "a.com"; Call "check_domain_whois" "a.com"; WhoisQuery "a.com";
      Sleep 1;
      Call "check_domain" "b.io"; Call "check_domain_whois" "b.io"; WhoisQuery "b.io";
      Sleep 1]).
Proof.
  eapply (proj1 (check_multiple_domains_append world_all_free checker_without_key 1)
            ["a.com"] ["b.io"] []).
  - reflexivity.
  - reflexivity.
Defined.

(** * The command line *)

Lemma cli_report_run w checker domains : forall printed tr,
  exists results tr',
    Cli.report w checker domains printed tr
    = (Ok (printed ++ concat (map (fun r => Cli.lines_for (domain r) r) results)), tr')
    /\ map domain results = domains
    /\ checked tr' = checked tr ++ domains.
Proof.
  induction domains as [|d ds IH]; intros printed tr.
  - exists [], tr. simpl. rewrite !app_nil_r. auto.
  - destruct (check_domain_run w checker d None tr) as (r & tr1 & E & Hd & _ & Hc).
    destruct (IH (printed ++ Cli.lines_for d r) tr1) as (rs & tr' & E' & Hm & Hc').
    exists (r :: rs), tr'. cbn [Cli.report]. unfold bind. rewrite E, E'.
    cbn [map concat]. rewrite Hd, Hm, Hc', Hc, <- !app_assoc. auto.
Qed.

(** X16: run with no domain on the command line, [main] prints the two
    usage lines and exits with status 1 without checking anything; run with
    domains, it checks each of them once, in the order given, prints the
    heading and then for each domain its status line, the method line when
    the result has a method, and an empty line, and ends with status 0.
    The status line says AVAILABLE only for a result whose [available] is
    true and TAKEN only for one whose [available] is false. *)
Theorem cli_main_reports
    (w : world) (getenv : string -> option string) (argv : list string) (tr : trace) :
  (length argv < 2 -> Cli.main w getenv argv tr = (Ok (Cli.usage, 1%Z), tr))
  /\ (2 <= length argv ->
      exists results tr',
        Cli.main w getenv argv tr
        = (Ok (Cli.heading :: concat (map (fun r => Cli.lines_for (domain r) r) results), 0%Z),
           tr')
        /\ map domain results = tl argv
        /\ checked tr' = checked tr ++ tl argv)
  /\ (forall r,
        (Cli.status_text r = Cli.check_mark +:+ " AVAILABLE" <-> available r = Some true)
        /\ (Cli.status_text r = Cli.cross_mark +:+ " TAKEN" <-> available r = Some false)).
Proof.
  split; [|split].
  - intros Hlen. unfold Cli.main. apply Nat.ltb_lt in Hlen. now rewrite Hlen.
  - intros Hlen. unfold Cli.main. apply Nat.ltb_ge in Hlen. rewrite Hlen.
    destruct (cli_report_run w (init getenv) (tl argv) [Cli.heading] tr)
      as (rs & tr' & E & Hm & Hc).
    exists rs, tr'. unfold bind, ret. rewrite E. auto.
  - intros r. unfold Cli.status_text.
    destruct (available r) as [[|]|]; split; split; intros H;
      try reflexivity; try discriminate.
Qed.


Lemma cli_main_reports_witness :
  Cli.main world_all_free (fun _ => None) ["check_domain.py"] [] = (Ok (Cli.usage, 1%Z), [])
  /\ exists results tr',
       Cli.main world_all_free (fun _ => None) ["check_domain.py"; "a.com"] []
       = (Ok (Cli.heading :: concat (map (fun r => Cli.lines_for (domain r) r) results), 0%Z),
          tr')
       /\ map domain results = tl ["check_domain.py"; "a.com"]
       /\ checked tr' = checked [] ++ tl ["check_domain.py"; "a.com"].
Proof.
  split.
  - apply (proj1 (cli_main_reports world_all_free (fun _ => None) ["check_domain.py"] [])).
    simpl. lia.
  - apply (proj1 (proj2 (cli_main_reports world_all_free (fun _ => None)
                           ["check_domain.py"; "a.com"] []))).
    simpl. lia.
Defined.

(** * Verdicts of the resolution and registration-record strategies *)

(** X17: [check_domain_dns] reports a name that resolves as registered, a
    name whose resolution fails with [gaierror] as available, both without
    an error and with the outcome of the resolution in [details], and any
    other failure as unknown with the error "DNS check failed: ...". *)
Theorem check_domain_dns_verdict (w : world) (d : string) (tr : trace) :
  exists r,
    check_domain_dns w d tr = (Ok r, tr ++ [Call "check_domain_dns" d; DnsQuery d])
    /\ (available r = Some false <->
        exists addr, dns_answer w (tr ++ [Call "check_domain_dns" d]) d = inr addr)
    /\ (available r = Some true <->
        exists e, dns_answer w (tr ++ [Call "check_domain_dns" d]) d = inl e
                  /\ exn_kind e = Gaierror)
    /\ (forall b, available r = Some b ->
          error r = None /\ details r = Some (PyDict [("dns_resolves", PyBool (negb b))]))
    /\ (forall e, dns_answer w (tr ++ [Call "check_domain_dns" d]) d = inl e ->
          exn_kind e <> Gaierror ->
          available r = None /\ error r = Some ("DNS check failed: " +:+ exn_str e)).
Proof.
  unfold check_domain_dns, gethostbyname, try_except, bind, emit, ask, ret.
  destruct (dns_answer w (tr ++ [Call "check_domain_dns" d]) d) as [e|addr] eqn:Ea.
  - destruct (exn_kind e) eqn:Ek; rewrite <- app_assoc; eexists; (split; [reflexivity|]);
      cbn [available error details];
      (split; [split; [discriminate | intros (? & ?); discriminate]|]);
      (split; [split; [try discriminate; intros _; exists e; auto
                      | try reflexivity; intros (e' & [= <-] & ?); congruence]|]);
      (split; [intros b [= <-]; auto; fail || intros b Hb; discriminate Hb
              | intros e' [= <-] Hk; try congruence; auto]).
  - rewrite <- app_assoc. eexists. split; [reflexivity|]. cbn [available error details].
    split; [split; [eauto | reflexivity]|].
    split; [split; [discriminate | intros (e & ? & _); discriminate]|].
    split; [intros b [= <-]; auto | intros e ?; discriminate].
Qed.

(** X18: when the WHOIS query returns a record, [check_domain_whois]
    reports the name available if the [domain_name] of the record is empty
    or missing, and registered otherwise, with the registrar and the two
    dates of the record in [details], a date that is missing being kept as
    [None]; in both cases without an error. *)
Theorem check_domain_whois_record_verdict
    (w : world) (d : string) (tr : trace) (entry : whois_entry) :
  whois_answer w (tr ++ [Call "check_domain_whois" d]) d = inr entry ->
  exists r,
    check_domain_whois w d tr
    = (Ok r, tr ++ [Call "check_domain_whois" d; WhoisQuery d])
    /\ error r = None
    /\ (truthy (domain_name entry) = false ->
        available r = Some true
        /\ details r = Some (PyDict [("whois_data", PyStr "No registration found")]))
    /\ (truthy (domain_name entry) = true ->
        available r = Some false
        /\ details r = Some (PyDict [("registrar", registrar entry);
                                     ("creation_date", opt_pystr (creation_date entry));
                                     ("expiration_date", opt_pystr (expiration_date entry))])).
Proof.
  intros Hans.
  unfold check_domain_whois, whois_whois, try_except, bind, emit, ask, ret.
  rewrite Hans, <- app_assoc. cbn [app].
  destruct (truthy (domain_name entry)); cbn [negb];
    eexists; (split; [reflexivity|]); repeat split; try reflexivity; discriminate.
Qed.

Lemma check_domain_whois_record_verdict_witness :
  exists r,
    check_domain_whois
      (constant_world
         (inr {| domain_name := PyNone; registrar := PyNone;
                 creation_date := None; expiration_date := None |})
         (inl refused) (inl refused))
      "a.com" []
    = (Ok r, [] ++ [Call "check_domain_whois" "a.com"; WhoisQuery "a.com"])
    /\ error r = None
    /\ (truthy PyNone = false ->
        available r = Some true
        /\ details r = Some (PyDict [("whois_data", PyStr "No registration found")]))
    /\ (truthy PyNone = true ->
        available r = Some false
        /\ details r = Some (PyDict [("registrar", PyNone);
                                     ("creation_date", opt_pystr None);
                                     ("expiration_date", opt_pystr None)])).
Proof.
  apply (check_domain_whois_record_verdict
           (constant_world
              (inr {| domain_name := PyNone; registrar := PyNone;
                      creation_date := None; expiration_date := None |})
              (inl refused) (inl refused))
           "a.com" []
           {| domain_name := PyNone; registrar := PyNone;
              creation_date := None; expiration_date := None |}).
  reflexivity.
Defined.

(** * The third-party provider as the last resort *)

Lemma answers_whois w self d tr r tr1 :
  check_domain_whois w d tr = (Ok r, tr1) -> answers w self d "whois" tr r tr1.
Proof. intros E. unfold answers, dispatch, bind, ret. cbn [String.eqb Ascii.eqb Bool.eqb]. now rewrite E. Qed.

Lemma answers_dns w self d tr r tr1 :
  check_domain_dns w d tr = (Ok r, tr1) -> answers w self d "dns" tr r tr1.
Proof. intros E. unfold answers, dispatch, bind, ret. cbn [String.eqb Ascii.eqb Bool.eqb]. now rewrite E. Qed.

Lemma answers_rapidapi w self d tr r tr1 :
  check_domain_rapidapi w self d "whoisapi" tr = (Ok r, tr1) ->
  answers w self d "rapidapi" tr r tr1.
Proof. intros E. unfold answers, dispatch, bind, ret. cbn [String.eqb Ascii.eqb Bool.eqb]. now rewrite E. Qed.

(** X19: with the default methods, a check of a valid name sends a request
    to the third-party provider only after it has sent a WHOIS query and a
    DNS query for that name, and when it has sent one the result it returns
    is the one of the third-party strategy: the provider is asked only when
    neither of the two other strategies gave a definitive answer. *)
Theorem check_domain_default_last_resort
    (w : world) (self : DomainChecker) (d : string) (tr : trace) :
  is_valid_domain d = true ->
  exists r ext,
    check_domain w self d None tr = (Ok r, tr ++ Call "check_domain" d :: ext)
    /\ forall rq, In (HttpGet rq) ext ->
         exists before after,
           ext = before ++ HttpGet rq :: after
           /\ In (WhoisQuery d) before /\ In (DnsQuery d) before
           /\ method r = Some "rapidapi_whoisapi".
Proof.
  intros Hv.
  rewrite check_domain_default, (check_domain_valid w self d _ tr Hv).
  unfold default_methods. cbn [for_methods]. unfold bind at 1.
  destruct (check_domain_whois_detail w d (tr ++ [Call "check_domain" d])) as (r1 & E1 & _).
  pose proof (answers_whois w self d _ _ _ E1) as A1.
  destruct (definitive r1) eqn:D1.
  { rewrite (attempt_definitive w self d _ None _ _ _ A1 D1). unfold ret.
    eexists _, _. split; [rewrite <- app_assoc; reflexivity|].
    intros rq Hin. simpl in Hin. intuition discriminate. }
  rewrite (attempt_not_definitive w self d _ None _ _ _ A1 D1).
  unfold bind at 1.
  destruct (check_domain_dns_detail w d
              ((tr ++ [Call "check_domain" d])
                 ++ [Call "check_domain_whois" d; WhoisQuery d] ++ [Sleep (1 # 2)]))
    as (r2 & E2 & _).
  rewrite <- !app_assoc in *. cbn [app] in *.
  pose proof (answers_dns w self d _ _ _ E2) as A2.
  destruct (definitive r2) eqn:D2.
  { rewrite (attempt_definitive w self d _ _ _ _ _ A2 D2). unfold ret.
    eexists _, _. split; [rewrite <- ?app_assoc; reflexivity|].
    intros rq Hin. simpl in Hin. intuition discriminate. }
  rewrite (attempt_not_definitive w self d _ _ _ _ _ A2 D2).
  rewrite <- !app_assoc. cbn [app].
  unfold bind at 1.
  destruct (check_domain_rapidapi_detail w self d "whoisapi"
              (tr ++ [Call "check_domain" d; Call "check_domain_whois" d; WhoisQuery d;
                      Sleep (1 # 2); Call "check_domain_dns" d; DnsQuery d; Sleep (1 # 2)]))
    as (r3 & ext3 & E3 & _ & M3 & Hext3).
  pose proof (answers_rapidapi w self d _ _ _ E3) as A3.
  assert (Hfind : forall after rq,
             In (HttpGet rq)
                ([Call "check_domain_whois" d; WhoisQuery d; Sleep (1 # 2);
                  Call "check_domain_dns" d; DnsQuery d; Sleep (1 # 2);
                  Call "check_domain_rapidapi" d] ++ ext3 ++ after) ->
             (forall e, In e after -> is_network e = false) ->
             exists before after',
               [Call "check_domain_whois" d; WhoisQuery d; Sleep (1 # 2);
                Call "check_domain_dns" d; DnsQuery d; Sleep (1 # 2);
                Call "check_domain_rapidapi" d] ++ ext3 ++ after
               = before ++ HttpGet rq :: after'
               /\ In (WhoisQuery d) before /\ In (DnsQuery d) before).
  { intros after rq Hin Hafter.
    destruct Hext3 as [-> | (rq3 & -> & _)].
    - exfalso. simpl in Hin.
      repeat (destruct Hin as [Hin | Hin]; [discriminate|]).
      apply Hafter in Hin. discriminate.
    - exists [Call "check_domain_whois" d; WhoisQuery d; Sleep (1 # 2);
              Call "check_domain_dns" d; DnsQuery d; Sleep (1 # 2);
              Call "check_domain_rapidapi" d], after.
      assert (Hrq : rq = rq3).
      { simpl in Hin.
        repeat (destruct Hin as [Hin | Hin]; [try discriminate|]).
        - now injection Hin.
        - apply Hafter in Hin. discriminate. }
      subst rq3. split; [reflexivity|]. simpl. auto 8. }
  destruct (definitive r3) eqn:D3.
  - rewrite (attempt_definitive w self d _ _ _ _ _ A3 D3). unfold ret.
    exists r3, ([Call "check_domain_whois" d; WhoisQuery d; Sleep (1 # 2);
                 Call "check_domain_dns" d; DnsQuery d; Sleep (1 # 2);
                 Call "check_domain_rapidapi" d] ++ ext3 ++ []).
    split; [rewrite app_nil_r, <- ?app_assoc; reflexivity|].
    intros rq Hin. destruct (Hfind [] rq Hin) as (b & a & E & Hw & Hd); [intros e []|].
    exists b, a. auto.
  - rewrite (attempt_not_definitive w self d _ _ _ _ _ A3 D3). unfold ret.
    exists r3, ([Call "check_domain_whois" d; WhoisQuery d; Sleep (1 # 2);
                 Call "check_domain_dns" d; DnsQuery d; Sleep (1 # 2);
                 Call "check_domain_rapidapi" d] ++ ext3 ++ [Sleep (1 # 2)]).
    split; [rewrite <- ?app_assoc; reflexivity|].
    intros rq Hin. destruct (Hfind [Sleep (1 # 2)] rq Hin) as (b & a & E & Hw & Hd).
    { intros e [<- | []]. reflexivity. }
    exists b, a. auto.
Qed.

Lemma check_domain_default_last_resort_witness :
  exists r ext,
    check_domain world_empty_json checker_with_key "a.com" None []
    = (Ok r, [] ++ Call "check_domain" "a.com" :: ext)
    /\ forall rq, In (HttpGet rq) ext ->
         exists before after,
           ext = before ++ HttpGet rq :: after
           /\ In (WhoisQuery "a.com") before /\ In (DnsQuery "a.com") before
           /\ method r = Some "rapidapi_whoisapi".
Proof.
  apply (check_domain_default_last_resort world_empty_json checker_with_key "a.com" []).
  reflexivity.
Defined.

(** * Instances of the bounds on concrete inputs *)

Lemma generate_domain_suggestions_bounded_witness :
  generate_domain_suggestions "foo" (Some []) = [].
Proof.
  apply (proj1 (proj2 (proj2 (generate_domain_suggestions_bounded "foo" (Some []))))).
  reflexivity.
Defined.

Lemma check_domain_dns_verdict_witness :
  exists r,
    check_domain_dns world_offline "a.com" []
    = (Ok r, [] ++ [Call "check_domain_dns" "a.com"; DnsQuery "a.com"])
    /\ available r = None
    /\ error r = Some ("DNS check failed: " +:+ exn_str refused).
Proof.
  destruct (check_domain_dns_verdict world_offline "a.com" []) as (r & E & _ & _ & _ & Hother).
  exists r. split; [exact E|].
  apply (Hother refused); [reflexivity | discriminate].
Defined.
